(** * The chat page of the acupressure mini program

    A shallow embedding of [miniprogram/pages/index/index.js]: the page data,
    the handlers [onInputChange], [onQuickTap] and [sendMessage], and the two
    network helpers [callChatAPI] and [getImages] with [loadAcupointImages].

    JavaScript values coming from the server are modelled as JSON trees,
    strings as sequences of UTF-16 code units, and the asynchronous handlers
    as computations in a small monad that threads the page data, records the
    observable effects ([setData] renders, [wx.request] calls, console
    output) and propagates exceptions the way [try]/[catch] and rejected
    promises do.

    A handler is run from its first statement to its last.  The page runs
    on one thread, and while [sendMessage] is suspended at an [await] the
    only code that can run is another handler of the page; [sending] is
    true all that time, so such a handler can only store what the user
    types into [inputValue] (see [pending_only_types]), which the rest of
    [sendMessage] neither reads nor writes. *)

From Stdlib Require Import ZArith NArith List Bool String Ascii Lia DecimalString.
From Stdlib Require Import Sorting.Sorted.
From Stdlib Require Import DecimalPos DecimalZ.
Import ListNotations.

Local Open Scope Z_scope.
Set Warnings "-register-all".

(** ** Strings *)

(** A JavaScript string is a sequence of UTF-16 code units. *)
Definition jsstring : Type := list N.

Fixpoint str_eqb (a b : jsstring) : bool :=
  match a, b with
  | [], [] => true
  | x :: a', y :: b' => N.eqb x y && str_eqb a' b'
  | _, _ => false
  end.

(** Source literals are written as they appear in the source file (UTF-8)
    and decoded to code units. *)
Module Utf8.

Definition cont (b : N) : N := N.land b 63.

Definition units_of_code_point (cp : N) : list N :=
  if (cp <? 65536)%N then [cp]
  else
    let v := (cp - 65536)%N in
    [(55296 + N.shiftr v 10)%N; (56320 + N.land v 1023)%N].

Fixpoint decode (bs : list N) : list N :=
  match bs with
  | [] => []
  | b0 :: t0 =>
    if (b0 <? 128)%N then b0 :: decode t0
    else if (b0 <? 224)%N then
      match t0 with
      | b1 :: t1 => (N.shiftl (N.land b0 31) 6 + cont b1)%N :: decode t1
      | [] => []
      end
    else if (b0 <? 240)%N then
      match t0 with
      | b1 :: b2 :: t2 =>
        (N.shiftl (N.land b0 15) 12 + N.shiftl (cont b1) 6 + cont b2)%N
          :: decode t2
      | _ => []
      end
    else
      match t0 with
      | b1 :: b2 :: b3 :: t3 =>
        units_of_code_point
          (N.shiftl (N.land b0 7) 18 + N.shiftl (cont b1) 12
           + N.shiftl (cont b2) 6 + cont b3)%N
          ++ decode t3
      | _ => []
      end
  end.

Definition bytes (s : string) : list N :=
  map N_of_ascii (list_ascii_of_string s).

End Utf8.

Definition js (s : string) : jsstring := Utf8.decode (Utf8.bytes s).
Arguments js : simpl never.

(** [Number::toString] on an integer-valued Number of magnitude below 1e21:
    the plain decimal digits. *)
Definition Number_toString (z : Z) : jsstring :=
  Utf8.bytes (NilZero.string_of_int (Z.to_int z)).

(** *** [String.prototype.trim]

    [trim] strips WhiteSpace and LineTerminator code points (ECMA-262,
    sections 12.2 and 12.3) from both ends. *)
Definition is_white_space (c : N) : bool :=
  ((9 <=? c) && (c <=? 13) (* TAB, LF, VT, FF, CR *)
   || (c =? 32) || (c =? 160) || (c =? 5760)
   || (8192 <=? c) && (c <=? 8202)
   || (c =? 8232) || (c =? 8233) || (c =? 8239) || (c =? 8287)
   || (c =? 12288) || (c =? 65279))%N.

Fixpoint trimStart (s : jsstring) : jsstring :=
  match s with
  | [] => []
  | c :: s' => if is_white_space c then trimStart s' else s
  end.

Definition trimEnd (s : jsstring) : jsstring := rev (trimStart (rev s)).

Definition trim (s : jsstring) : jsstring := trimEnd (trimStart s).

(** The string iterator used by [for ... of]: it walks code points, so a
    surrogate pair is one element. *)
Definition is_high_surrogate (c : N) : bool := ((55296 <=? c) && (c <=? 56319))%N.
Definition is_low_surrogate (c : N) : bool := ((56320 <=? c) && (c <=? 57343))%N.

Fixpoint string_iterator (s : jsstring) : list jsstring :=
  match s with
  | [] => []
  | c :: rest =>
    match rest with
    | c2 :: rest2 =>
      if is_high_surrogate c && is_low_surrogate c2
      then [c; c2] :: string_iterator rest2
      else [c] :: string_iterator rest
    | [] => [[c]]
    end
  end.

(** ** Exceptions *)

Inductive exn : Type :=
| TypeError                          (* thrown by the language itself *)
| HttpError (statusCode : Z)         (* [new Error(`HTTP ${statusCode}`)] *)
| RequestFailed (errMsg : jsstring). (* the object [wx.request] hands to [fail] *)

Inductive result (A : Type) : Type :=
| Ok (a : A)
| Throw (e : exn).
Arguments Ok {A} a.
Arguments Throw {A} e.

Definition rbind {A B} (r : result A) (f : A -> result B) : result B :=
  match r with
  | Ok a => f a
  | Throw e => Throw e
  end.

Fixpoint map_result {A B} (f : A -> result B) (l : list A) : result (list B) :=
  match l with
  | [] => Ok []
  | x :: l' =>
    rbind (f x) (fun y => rbind (map_result f l') (fun ys => Ok (y :: ys)))
  end.

Inductive http_method : Type := GET | POST.

(** ** What the page takes from its surroundings *)

(** JSON numbers are IEEE doubles.  The page only ever tests them for
    truthiness and interpolates them into strings, so the type and the two
    operations are left open.  [apiBase] is [app.globalData.apiBase], the
    configured address of the server. *)
Class Environment : Type := {
  num : Type;
  num_truthy : num -> bool;       (* ToBoolean: false on 0 and NaN *)
  num_toString : num -> jsstring; (* Number::toString *)
  apiBase : jsstring
}.

Section Model.

Context {env : Environment}.

(** ** Values received from the server *)

Inductive value : Type :=
| VUndefined
| VNull
| VBool (b : bool)
| VNum (n : num)
| VStr (s : jsstring)
| VArr (items : list value)
| VObj (props : list (jsstring * value)).

(** Own properties of an object, looked up by name. *)
Fixpoint lookup (k : jsstring) (props : list (jsstring * value)) : option value :=
  match props with
  | [] => None
  | (k', v) :: rest => if str_eqb k k' then Some v else lookup k rest
  end.

Definition has_own (k : jsstring) (props : list (jsstring * value)) : bool :=
  match lookup k props with Some _ => true | None => false end.

(** Assignment to a property: an existing one keeps its place. *)
Fixpoint obj_set (k : jsstring) (v : value) (props : list (jsstring * value))
  : list (jsstring * value) :=
  match props with
  | [] => [(k, v)]
  | (k', v') :: rest =>
    if str_eqb k k' then (k, v) :: rest else (k', v') :: obj_set k v rest
  end.

(** [v.k] for the property names the page reads ([success], [message],
    [mode], [llm_response], [recommended_acupoints], [diagnosis],
    [symptom], [acupoints], [disclaimer], [code], [images]): none of them
    is defined on a built-in prototype, so only own properties of objects
    answer, and reading a property of [undefined] or [null] throws. *)
Definition Get (v : value) (k : jsstring) : result value :=
  match v with
  | VUndefined | VNull => Throw TypeError
  | VObj props =>
    match lookup k props with
    | Some x => Ok x
    | None => Ok VUndefined
    end
  | _ => Ok VUndefined
  end.

Definition ToBoolean (v : value) : bool :=
  match v with
  | VUndefined | VNull => false
  | VBool b => b
  | VNum n => num_truthy n
  | VStr s => match s with [] => false | _ => true end
  | VArr _ | VObj _ => true
  end.

(** [a || b] *)
Definition or_else (a b : value) : value := if ToBoolean a then a else b.

(** [v === 'literal'] *)
Definition strict_eq_str (v : value) (lit : jsstring) : bool :=
  match v with
  | VStr s => str_eqb s lit
  | _ => false
  end.

(** [ToString], as applied by template literals.  An array is joined with
    commas, [null] and [undefined] elements giving the empty string; a
    plain object prints as [[object Object]] unless it has an own
    [toString] property, which (not being callable) makes the conversion
    throw. *)
Fixpoint ToString (v : value) : result jsstring :=
  match v with
  | VUndefined => Ok (js "undefined")
  | VNull => Ok (js "null")
  | VBool true => Ok (js "true")
  | VBool false => Ok (js "false")
  | VNum n => Ok (num_toString n)
  | VStr s => Ok s
  | VArr items =>
    let element (x : value) : result jsstring :=
      match x with
      | VUndefined | VNull => Ok []
      | _ => ToString x
      end in
    (fix join (l : list value) : result jsstring :=
       match l with
       | [] => Ok []
       | x :: l' =>
         match l' with
         | [] => element x
         | _ :: _ =>
           rbind (element x) (fun s =>
           rbind (join l') (fun r => Ok (s ++ js "," ++ r)))
         end
       end) items
  | VObj props =>
    if has_own (js "toString") props then Throw TypeError
    else Ok (js "[object Object]")
  end.

(** The own enumerable properties copied by [{...v}]. *)
Definition index_keys (n : nat) : list jsstring :=
  map (fun i => Number_toString (Z.of_nat i)) (seq 0 n).

Definition spread (v : value) : list (jsstring * value) :=
  match v with
  | VObj props => props
  | VArr items => combine (index_keys (List.length items)) items
  | VStr s => combine (index_keys (List.length s)) (map (fun c => VStr [c]) s)
  | VUndefined | VNull | VBool _ | VNum _ => []
  end.

(** What [for (const x of v)] iterates over; [None] when [v] is not
    iterable. *)
Definition iterate (v : value) : option (list value) :=
  match v with
  | VArr items => Some items
  | VStr s => Some (map VStr (string_iterator s))
  | _ => None
  end.

(** ** The message log and the page data *)

(** The [type] field of a log entry. *)
Inductive msg_type : Type := loading | text | diagnosis.

(** The four shapes of object [sendMessage] puts into [data.messages]. *)
Inductive message : Type :=
| UserMsg (id : Z) (content : jsstring)
    (* { id, isUser: true, content } *)
| LoadingMsg (id : Z)
    (* { id, isUser: false, type: 'loading' } *)
| TextMsg (id : Z) (content : value)
    (* { id, isUser: false, type: 'text', content } *)
| DiagnosisMsg (id : Z) (title : jsstring) (llmResponse : value)
               (acupoints : list value) (disclaimer : value).
    (* { id, isUser: false, type: 'diagnosis', title, llmResponse,
         acupoints, disclaimer } *)

Definition msg_id (m : message) : Z :=
  match m with
  | UserMsg id _ | LoadingMsg id | TextMsg id _ | DiagnosisMsg id _ _ _ _ => id
  end.

Definition isUser (m : message) : bool :=
  match m with
  | UserMsg _ _ => true
  | _ => false
  end.

(** [m.type]; a user message has none. *)
Definition type_of (m : message) : option msg_type :=
  match m with
  | UserMsg _ _ => None
  | LoadingMsg _ => Some loading
  | TextMsg _ _ => Some text
  | DiagnosisMsg _ _ _ _ _ => Some diagnosis
  end.

(** [m => m.type !== 'loading'] *)
Definition not_loading (m : message) : bool :=
  match type_of m with
  | Some loading => false
  | _ => true
  end.

(** [messageId] is a Number that only ever holds a small natural number
    (it grows by three per submission), on which the arithmetic of doubles
    is exact: it is modelled as an integer. *)
Record page_data : Type := mkData {
  messages : list message;
  inputValue : jsstring;
  sending : bool;
  scrollToView : jsstring;
  messageId : Z;
  quickSymptoms : list (jsstring * jsstring)   (* text, query *)
}.

(** The [data] the page is created with. *)
Definition initial_data : page_data :=
  {| messages := [];
     inputValue := [];
     sending := false;
     scrollToView := js "bottom";
     messageId := 0;
     quickSymptoms :=
       [ (js "头痛", js "我头痛");
         (js "失眠", js "我失眠睡不着");
         (js "焦虑", js "我很焦虑紧张");
         (js "颈椎痛", js "我脖子僵硬");
         (js "腰痛", js "我腰疼");
         (js "恶心", js "我恶心想吐") ] |}.

(** ** The network *)

(** What [wx.request] eventually reports: [success] with a status code
    and the decoded body, or [fail].  Every request completes. *)
Inductive wx_result : Type :=
| WxSuccess (statusCode : Z) (data : value)
| WxFail (errMsg : jsstring).

(** The server as seen during one submission: the answer to the chat
    request, and the answer to the image request issued for the point at
    a given position of the list being resolved. *)
Record network : Type := mkNetwork {
  chat_response : jsstring -> wx_result;         (* by message *)
  image_response : nat -> jsstring -> wx_result  (* by position and url *)
}.

(** ** Effects *)

Inductive effect : Type :=
| Render (d : page_data)                  (* the data after a [setData] *)
| Request (method : http_method) (url : jsstring) (body : option jsstring)
| ConsoleError (label : jsstring) (e : exn).

(** A handler reads and writes [this.data], leaves a trace of effects, and
    ends normally or with an exception. *)
Definition M (A : Type) : Type :=
  page_data -> result A * page_data * list effect.

Definition ret {A} (a : A) : M A := fun d => (Ok a, d, []).

Definition bind {A B} (m : M A) (f : A -> M B) : M B :=
  fun d =>
    match m d with
    | (Ok a, d1, t1) =>
      match f a d1 with
      | (r, d2, t2) => (r, d2, t1 ++ t2)
      end
    | (Throw e, d1, t1) => (Throw e, d1, t1)
    end.

Definition throw {A} (e : exn) : M A := fun d => (Throw e, d, []).

Definition lift {A} (r : result A) : M A := fun d => (r, d, []).

(** [try { body } catch (e) { handler }] *)
Definition try_catch {A} (body : M A) (handler : exn -> M A) : M A :=
  fun d =>
    match body d with
    | (Ok a, d1, t1) => (Ok a, d1, t1)
    | (Throw e, d1, t1) =>
      match handler e d1 with
      | (r, d2, t2) => (r, d2, t1 ++ t2)
      end
    end.

Definition getData : M page_data := fun d => (Ok d, d, []).

(** [this.setData(patch)]: the patch is merged and the page re-rendered. *)
Definition setData (patch : page_data -> page_data) : M unit :=
  fun d => (Ok tt, patch d, [Render (patch d)]).

Definition wx_request (method : http_method) (url : jsstring)
           (body : option jsstring) (answer : wx_result) : M wx_result :=
  fun d => (Ok answer, d, [Request method url body]).

Definition console_error (label : jsstring) (e : exn) : M unit :=
  fun d => (Ok tt, d, [ConsoleError label e]).

Notation "x <- m ;; k" := (bind m (fun x => k))
  (at level 61, m at next level, right associativity).
Notation "m ;; k" := (bind m (fun _ => k))
  (at level 61, right associativity).

(** ** [callChatAPI] *)

Definition callChatAPI (net : network) (message : jsstring) : M value :=
  res <- wx_request POST (apiBase ++ js "/chat") (Some message)
                    (chat_response net message) ;;
  match res with
  | WxSuccess statusCode data =>
    if statusCode =? 200 then ret data else throw (HttpError statusCode)
  | WxFail errMsg => throw (RequestFailed errMsg)
  end.

(** ** [getImages]

    The promise it returns is rejected only when building the url throws;
    every answer of the server resolves it. *)
Definition no_images : value := VObj [(js "images", VArr [])].

Definition getImages (net : network) (position : nat) (code : value) : M value :=
  c <- lift (ToString code) ;;
  let url := apiBase ++ js "/images/" ++ c in
  res <- wx_request GET url None (image_response net position url) ;;
  match res with
  | WxSuccess statusCode data =>
    if statusCode =? 200 then ret data else ret no_images
  | WxFail _ => ret no_images
  end.

(** ** [loadAcupointImages] *)

(** [(imgRes.images || []).slice(0, 6).map(img => `${apiBase}${img}`)]:
    only an array has both [slice] and [map]. *)
Definition image_urls (imgRes : value) : result (list value) :=
  rbind (Get imgRes (js "images")) (fun images =>
  match or_else images (VArr []) with
  | VArr items =>
    map_result
      (fun img => rbind (ToString img) (fun s => Ok (VStr (apiBase ++ s))))
      (firstn 6 items)
  | _ => Throw TypeError
  end).

(** [{ ...point, images }] *)
Definition with_images (point : value) (images : list value) : value :=
  VObj (obj_set (js "images") (VArr images) (spread point)).

(** One turn of the loop body, [results.push] included. *)
Definition load_one (net : network) (position : nat) (point : value)
           (results : list value) : M (list value) :=
  try_catch
    (code <- lift (Get point (js "code")) ;;
     imgRes <- getImages net position code ;;
     images <- lift (image_urls imgRes) ;;
     ret (results ++ [with_images point images]))
    (fun e =>
       console_error (js "加载图片失败:") e ;;
       ret (results ++ [with_images point []])).

Fixpoint load_loop (net : network) (position : nat) (points : list value)
         (results : list value) : M (list value) :=
  match points with
  | [] => ret results
  | point :: rest =>
    results' <- load_one net position point results ;;
    load_loop net (S position) rest results'
  end.

Definition loadAcupointImages (net : network) (acupoints : value)
  : M (list value) :=
  match iterate acupoints with
  | Some points => load_loop net 0%nat points []
  | None => throw TypeError
  end.

(** ** [sendMessage] *)

Definition NOT_FOUND_TEXT : jsstring :=
  js "抱歉，我没有找到匹配的症状。请试试：头痛、失眠、焦虑、腰痛、颈椎等关键词。".

Definition NETWORK_ERROR_TEXT : jsstring :=
  js "无法连接服务器，请检查网络连接。".

(** [`针对「${symptom}」推荐以下穴位：`] *)
Definition title_for (symptom : jsstring) : jsstring :=
  js "针对「" ++ symptom ++ js "」推荐以下穴位：".

(** [`msg-${id}`] *)
Definition msg_anchor (id : Z) : jsstring := js "msg-" ++ Number_toString id.

(** Lines 70-102: the message built from the response, the one both
    branches [push]. *)
Definition response_message (net : network) (res : value) : M message :=
  success <- lift (Get res (js "success")) ;;
  if negb (ToBoolean success) then
    d <- getData ;;
    msg <- lift (Get res (js "message")) ;;
    ret (TextMsg (messageId d + 1) (or_else msg (VStr NOT_FOUND_TEXT)))
  else
    d <- getData ;;
    let id := messageId d + 1 in
    mode <- lift (Get res (js "mode")) ;;
    if strict_eq_str mode (js "llm") then
      llm_response <- lift (Get res (js "llm_response")) ;;
      recommended <- lift (Get res (js "recommended_acupoints")) ;;
      points <- loadAcupointImages net (or_else recommended (VArr [])) ;;
      ret (DiagnosisMsg id [] llm_response points (VStr []))
    else
      diag <- lift (Get res (js "diagnosis")) ;;
      symptom <- lift (Get diag (js "symptom")) ;;
      label <- lift (ToString symptom) ;;
      acupoints <- lift (Get diag (js "acupoints")) ;;
      points <- loadAcupointImages net (or_else acupoints (VArr [])) ;;
      disclaimer <- lift (Get diag (js "disclaimer")) ;;
      ret (DiagnosisMsg id (title_for label) (VStr []) points
                        (or_else disclaimer (VStr []))).

(** Lines 65-108: the body of the [try]. *)
Definition sendMessage_try (net : network) (message : jsstring) : M unit :=
  res <- callChatAPI net message ;;
  d <- getData ;;
  let messages0 := filter not_loading (messages d) in
  terminal <- response_message net res ;;
  let messages1 := messages0 ++ [terminal] in
  d <- getData ;;
  setData (fun cur =>
    {| messages := messages1;
       inputValue := inputValue cur;
       sending := sending cur;
       scrollToView := msg_anchor (messageId d + 1);
       messageId := messageId d + 1;
       quickSymptoms := quickSymptoms cur |}).

(** Lines 110-123: the [catch]. *)
Definition sendMessage_catch (err : exn) : M unit :=
  console_error (js "API错误:") err ;;
  d <- getData ;;
  let messages0 := filter not_loading (messages d) in
  setData (fun cur =>
    {| messages :=
         messages0 ++ [TextMsg (messageId d + 1) (VStr NETWORK_ERROR_TEXT)];
       inputValue := inputValue cur;
       sending := sending cur;
       scrollToView := scrollToView cur;
       messageId := messageId d + 1;
       quickSymptoms := quickSymptoms cur |}).

Definition sendMessage (net : network) : M unit :=
  d <- getData ;;
  let message := trim (inputValue d) in
  if match message with [] => true | _ => false end || sending d then ret tt
  else
    let msgId := messageId d + 1 in
    let userMsg := UserMsg msgId message in
    let loadingMsg := LoadingMsg (msgId + 1) in
    setData (fun cur =>
      {| messages := messages d ++ [userMsg; loadingMsg];
         inputValue := [];
         sending := true;
         scrollToView := msg_anchor (msgId + 1);
         messageId := msgId + 1;
         quickSymptoms := quickSymptoms cur |}) ;;
    try_catch (sendMessage_try net message) sendMessage_catch ;;
    setData (fun cur =>
      {| messages := messages cur;
         inputValue := inputValue cur;
         sending := false;
         scrollToView := scrollToView cur;
         messageId := messageId cur;
         quickSymptoms := quickSymptoms cur |}).

(** ** The other handlers *)

(** [onInputChange(e)], with [e.detail.value] as argument. *)
Definition onInputChange (v : jsstring) : M unit :=
  setData (fun cur =>
    {| messages := messages cur;
       inputValue := v;
       sending := sending cur;
       scrollToView := scrollToView cur;
       messageId := messageId cur;
       quickSymptoms := quickSymptoms cur |}).

(** [onQuickTap(e)], with [e.currentTarget.dataset.query] as argument. *)
Definition onQuickTap (net : network) (query : jsstring) : M unit :=
  onInputChange query ;;
  sendMessage net.

(** ** Reading a trace *)

Fixpoint renders (t : list effect) : list page_data :=
  match t with
  | [] => []
  | Render d :: t' => d :: renders t'
  | _ :: t' => renders t'
  end.

Fixpoint requests (t : list effect) : list (http_method * jsstring) :=
  match t with
  | [] => []
  | Request m url _ :: t' => (m, url) :: requests t'
  | _ :: t' => requests t'
  end.

(** The log seen as the target of two kinds of mutation. *)
Inductive log_op : Type :=
| Append (m : message)
| RemoveLoading.

Definition apply_op (log : list message) (op : log_op) : list message :=
  match op with
  | Append m => log ++ [m]
  | RemoveLoading => filter not_loading log
  end.

Definition apply_ops (ops : list log_op) (log : list message) : list message :=
  fold_left apply_op ops log.

Definition has_loading (log : list message) : bool :=
  existsb (fun m => negb (not_loading m)) log.

(** [d.k] on an object known to be one. *)
Definition field (props : list (jsstring * value)) (k : jsstring) : value :=
  match lookup k props with
  | Some v => v
  | None => VUndefined
  end.

(** What [await this.getImages(code)] evaluates to. *)
Definition fetched (net : network) (position : nat) (code : value)
  : result value :=
  rbind (ToString code) (fun c =>
    match image_response net position (apiBase ++ js "/images/" ++ c) with
    | WxSuccess statusCode data =>
      if statusCode =? 200 then Ok data else Ok no_images
    | WxFail _ => Ok no_images
    end).

(** The [images] a point ends up with. *)
Definition point_images (net : network) (position : nat) (point : value)
  : list value :=
  match rbind (Get point (js "code")) (fun code =>
        rbind (fetched net position code) image_urls) with
  | Ok images => images
  | Throw _ => []
  end.

(** The states a submission goes through. *)
Definition accepted (d : page_data) : page_data :=
  {| messages :=
       messages d ++ [UserMsg (messageId d + 1) (trim (inputValue d));
                      LoadingMsg (messageId d + 1 + 1)];
     inputValue := [];
     sending := true;
     scrollToView := msg_anchor (messageId d + 1 + 1);
     messageId := messageId d + 1 + 1;
     quickSymptoms := quickSymptoms d |}.

Definition finalized (d : page_data) : page_data :=
  {| messages := messages d;
     inputValue := inputValue d;
     sending := false;
     scrollToView := scrollToView d;
     messageId := messageId d;
     quickSymptoms := quickSymptoms d |}.

Definition is_accepted (d : page_data) : Prop :=
  trim (inputValue d) <> [] /\ sending d = false.

(** ** Outcomes of a submission *)

(** The list [loadAcupointImages] returns for an array, position by
    position. *)
Fixpoint resolved (net : network) (position : nat) (points : list value)
  : list value :=
  match points with
  | [] => []
  | point :: rest =>
    with_images point (point_images net position point)
      :: resolved net (S position) rest
  end.

(** The data after lines 104-108, [terminal] being the message pushed. *)
Definition settled (d : page_data) (terminal : message) : page_data :=
  {| messages := filter not_loading (messages d) ++ [terminal];
     inputValue := inputValue d;
     sending := sending d;
     scrollToView := msg_anchor (messageId d + 1);
     messageId := messageId d + 1;
     quickSymptoms := quickSymptoms d |}.

(** The data after the [catch] block. *)
Definition failed (d : page_data) : page_data :=
  {| messages :=
       filter not_loading (messages d)
       ++ [TextMsg (messageId d + 1) (VStr NETWORK_ERROR_TEXT)];
     inputValue := inputValue d;
     sending := sending d;
     scrollToView := scrollToView d;
     messageId := messageId d + 1;
     quickSymptoms := quickSymptoms d |}.

(** A submission that went through [d2] before clearing [sending]. *)
Definition submission (net : network) (d d2 : page_data) : Prop :=
  exists t,
    sendMessage net d = (Ok tt, finalized d2, t)
    /\ renders t = [accepted d; d2; finalized d2].

(** The request failed, or was answered with a status other than 200. *)
Definition transport_failure (r : wx_result) : Prop :=
  match r with
  | WxSuccess statusCode _ => statusCode <> 200
  | WxFail _ => True
  end.

(** [m] can end a submission that has brought the data to [d]: an
    assistant's text or diagnosis carrying the next id. *)
Definition terminal_for (d : page_data) (m : message) : Prop :=
  msg_id m = messageId d + 1
  /\ isUser m = false
  /\ (type_of m = Some text \/ type_of m = Some diagnosis).

(** The data after the user has typed [v]. *)
Definition typed (v : jsstring) (d : page_data) : page_data :=
  snd (fst (onInputChange v d)).

(** What a submission that ends in the [catch] block leaves behind. *)
Definition recovered (net : network) (d : page_data) : Prop :=
  exists t d',
    sendMessage net d = (Ok tt, d', t)
    /\ map messages (renders t)
       = [messages d ++ [UserMsg (messageId d + 1) (trim (inputValue d));
                         LoadingMsg (messageId d + 2)];
          messages d'; messages d']
    /\ messages d'
       = filter not_loading (messages d)
         ++ [UserMsg (messageId d + 1) (trim (inputValue d));
             TextMsg (messageId d + 3) (VStr NETWORK_ERROR_TEXT)]
    /\ has_loading (messages d') = false
    /\ sending d' = false
    /\ messageId d' = messageId d + 3.

(** A list of points as a response carries it: an array, or nothing. *)
Definition list_or_absent (v : value) (l : list value) : Prop :=
  v = VArr l \/ ((v = VUndefined \/ v = VNull) /\ l = []).

(** ** Sessions *)

(** What the user can do on the page. *)
Inductive ui_event : Type :=
| Typed (v : jsstring)
| QuickTap (net : network) (query : jsstring)
| Send (net : network).

Definition handle (e : ui_event) : M unit :=
  match e with
  | Typed v => onInputChange v
  | QuickTap net query => onQuickTap net query
  | Send net => sendMessage net
  end.

(** A session runs the handlers one after the other; what a handler
    returns is dropped, as the framework does. *)
Fixpoint run_session (es : list ui_event) (d : page_data)
  : page_data * list effect :=
  match es with
  | [] => (d, [])
  | e :: es' =>
    match handle e d with
    | (_, d1, t1) =>
      match run_session es' d1 with
      | (d2, t2) => (d2, t1 ++ t2)
      end
    end
  end.

(** Ids go up along the log. *)
Definition increasing_ids (log : list message) : Prop :=
  StronglySorted Z.lt (map msg_id log).

(** Along a sequence of rendered logs, a message either has been shown
    before or has an id above every id shown before. *)
Fixpoint fresh_ids (seen : list message) (logs : list (list message)) : Prop :=
  match logs with
  | [] => True
  | log :: rest =>
    (forall m, In m log ->
               In m seen \/ forall m', In m' seen -> msg_id m' < msg_id m)
    /\ fresh_ids (seen ++ log) rest
  end.

(** The invariant a session maintains: every id shown so far is at most
    [messageId], and the current log has been shown and is increasing. *)
Definition log_inv (seen : list message) (d : page_data) : Prop :=
  (forall m, In m seen -> msg_id m <= messageId d)
  /\ (forall m, In m (messages d) -> In m seen)
  /\ increasing_ids (messages d).

(** A handler that preserves the invariant and renders fresh ids only. *)
Definition keeps_ids_fresh (m : M unit) : Prop :=
  forall seen d,
    log_inv seen d ->
    match m d with
    | (_, d', t) =>
      let logs := map messages (renders t) in
      Forall increasing_ids logs
      /\ fresh_ids seen logs
      /\ log_inv (seen ++ List.concat logs) d'
    end.

(** ** More vocabulary *)

(** Nothing but white space. *)
Definition blank_string (s : jsstring) : bool := forallb is_white_space s.

(** A message [response_message] can return from data [d]. *)
Definition built (d : page_data) (m : message) : Prop :=
  exists net res t, response_message net res d = (Ok m, d, t).

(** A log made of exchanges, a user's message (id [n+1]) followed by the
    assistant's answer to it (id [n+3]), the last answer having id [last]. *)
Inductive exchanges : Z -> list message -> Prop :=
| exchanges_nil : exchanges 0 []
| exchanges_more (n : Z) (log : list message) (content : jsstring)
                 (answer : message) :
    exchanges n log ->
    content <> [] ->
    isUser answer = false ->
    (type_of answer = Some text \/ type_of answer = Some diagnosis) ->
    msg_id answer = n + 3 ->
    exchanges (n + 3) (log ++ [UserMsg (n + 1) content; answer]).

(** A log with one loading message, in the last place. *)
Definition loading_last (log : list message) : Prop :=
  exists before id,
    log = before ++ [LoadingMsg id] /\ has_loading before = false.

(** Each log keeps what the one before it showed, loading messages apart,
    and adds to it at the end. *)
Fixpoint grows (previous : list message) (logs : list (list message)) : Prop :=
  match logs with
  | [] => True
  | log :: rest =>
    (exists added, log = filter not_loading previous ++ added)
    /\ grows log rest
  end.

(** ** [onImageTap] *)

(** [msg.acupoints]; only a diagnosis message has one. *)
Definition message_acupoints (m : message) : option (list value) :=
  match m with
  | DiagnosisMsg _ _ _ acupoints _ => Some acupoints
  | _ => None
  end.

(** The inner [forEach]: [if (point.images) allImages.push(...point.images)]. *)
Fixpoint collect_point_images (points : list value) (allImages : list value)
  : result (list value) :=
  match points with
  | [] => Ok allImages
  | point :: rest =>
    rbind (Get point (js "images")) (fun images =>
      if ToBoolean images then
        match iterate images with
        | Some items => collect_point_images rest (allImages ++ items)
        | None => Throw TypeError
        end
      else collect_point_images rest allImages)
  end.

(** The outer [forEach]. *)
Fixpoint collect_images (log : list message) (allImages : list value)
  : result (list value) :=
  match log with
  | [] => Ok allImages
  | msg :: rest =>
    match message_acupoints msg with
    | Some points =>
      rbind (collect_point_images points allImages) (collect_images rest)
    | None => collect_images rest allImages
    end
  end.

(** [onImageTap(e)], with [e.currentTarget.dataset.src] as argument: what
    it hands to [wx.previewImage], [current] and [urls].  It does not touch
    the page data. *)
Definition onImageTap (src : value) (d : page_data)
  : result (value * list value) :=
  rbind (collect_images (messages d) []) (fun allImages =>
    Ok (src, match allImages with
             | [] => [src]
             | _ :: _ => allImages
             end)).

(** [onLoad()] and [onAcupointTap(e)] have no effect. *)
Definition onLoad : M unit := ret tt.

Definition onAcupointTap (point : value) : M unit := ret tt.

(** A url below [apiBase]. *)
Definition served_url (v : value) : Prop :=
  exists path : jsstring, v = VStr (apiBase ++ path).

(** A point as [loadAcupointImages] leaves it: an object whose [images]
    are at most six urls below [apiBase]. *)
Definition resolved_point (v : value) : Prop :=
  exists props images,
    v = VObj props
    /\ lookup (js "images") props = Some (VArr images)
    /\ (List.length images <= 6)%nat
    /\ Forall served_url images.

Definition resolved_message (m : message) : Prop :=
  match message_acupoints m with
  | Some points => Forall resolved_point points
  | None => True
  end.

(** [point.images] of a resolved point. *)
Definition images_of (point : value) : list value :=
  match point with
  | VObj props =>
    match lookup (js "images") props with
    | Some (VArr images) => images
    | _ => []
    end
  | _ => []
  end.

(** All the images of a log, in order. *)
Definition log_images (log : list message) : list value :=
  flat_map (fun m => match message_acupoints m with
                     | Some points => flat_map images_of points
                     | None => []
                     end) log.

(** A request for the images of a point. *)
Definition image_get (r : http_method * jsstring) : Prop :=
  fst r = GET /\ exists c : jsstring, snd r = apiBase ++ js "/images/" ++ c.

(** How many points a message shows. *)
Definition points_shown (m : message) : nat :=
  match message_acupoints m with
  | Some points => List.length points
  | None => 0%nat
  end.

(** * The detail page, [miniprogram/pages/detail/detail.js] *)

Record detail_data : Type := mkDetail {
  acupoint : value;
  images : list value
}.

(** The [data] the detail page is created with. *)
Definition initial_detail : detail_data :=
  {| acupoint := VObj []; images := [] |}.

Inductive detail_effect : Type :=
| DetailRender (d : detail_data)               (* the data after a [setData] *)
| DetailRequest (url : jsstring)               (* [wx.request({ url })] *)
| SetNavigationBarTitle (title : value)
| ShowToast (title : jsstring)
| DetailConsoleError (label : jsstring) (e : exn)
| PreviewImage (current : value) (urls : list value).

(** The server as seen during one [loadAcupoint]: the answer to its
    first and to its second request. *)
Definition detail_network : Type := nat -> jsstring -> wx_result.

(** The same kind of computation as [M], over the data and the effects of
    the detail page. *)
Definition DM (A : Type) : Type :=
  detail_data -> result A * detail_data * list detail_effect.

Definition dret {A} (a : A) : DM A := fun d => (Ok a, d, []).

Definition dbind {A B} (m : DM A) (f : A -> DM B) : DM B :=
  fun d =>
    match m d with
    | (Ok a, d1, t1) =>
      match f a d1 with
      | (r, d2, t2) => (r, d2, t1 ++ t2)
      end
    | (Throw e, d1, t1) => (Throw e, d1, t1)
    end.

Definition dlift {A} (r : result A) : DM A := fun d => (r, d, []).

Definition dtry_catch {A} (body : DM A) (handler : exn -> DM A) : DM A :=
  fun d =>
    match body d with
    | (Ok a, d1, t1) => (Ok a, d1, t1)
    | (Throw e, d1, t1) =>
      match handler e d1 with
      | (r, d2, t2) => (r, d2, t1 ++ t2)
      end
    end.

Definition detail_setData (patch : detail_data -> detail_data) : DM unit :=
  fun d => (Ok tt, patch d, [DetailRender (patch d)]).

Definition detail_emit (e : detail_effect) : DM unit :=
  fun d => (Ok tt, d, [e]).

Notation "x <~ m ;; k" := (dbind m (fun x => k))
  (at level 61, m at next level, right associativity).
Notation "m ;;~ k" := (dbind m (fun _ => k))
  (at level 61, right associativity).

(** [request(url)]: the body of any answer resolves the promise, whatever
    the status; only [fail] rejects it. *)
Definition request (net : detail_network) (k : nat) (url : jsstring)
  : DM value :=
  detail_emit (DetailRequest url) ;;~
  match net k url with
  | WxSuccess _ data => dret data
  | WxFail errMsg => dlift (Throw (RequestFailed errMsg))
  end.

(** [imgRes.images.map(img => `${apiBase}${img}`)]: only an array has
    [map]. *)
Definition detail_image_urls (images : value) : result (list value) :=
  match images with
  | VArr items =>
    map_result
      (fun img => rbind (ToString img) (fun s => Ok (VStr (apiBase ++ s))))
      items
  | _ => Throw TypeError
  end.

(** Lines 21-34: the body of the [try]. *)
Definition loadAcupoint_try (net : detail_network) (code : value) : DM unit :=
  c <~ dlift (ToString code) ;;
  detailRes <~ request net 0 (apiBase ++ js "/acupoint/" ++ c) ;;
  success <~ dlift (Get detailRes (js "success")) ;;
  (if ToBoolean success then
     found <~ dlift (Get detailRes (js "acupoint")) ;;
     detail_setData (fun cur =>
       {| acupoint := found; images := images cur |}) ;;~
     name <~ dlift (Get found (js "chinese_name")) ;;
     detail_emit (SetNavigationBarTitle (or_else name code))
   else dret tt) ;;~
  imgRes <~ request net 1 (apiBase ++ js "/images/" ++ c) ;;
  listed <~ dlift (Get imgRes (js "images")) ;;
  if ToBoolean listed then
    urls <~ dlift (detail_image_urls listed) ;;
    detail_setData (fun cur => {| acupoint := acupoint cur; images := urls |})
  else dret tt.

(** Lines 35-38: the [catch]. *)
Definition loadAcupoint_catch (e : exn) : DM unit :=
  detail_emit (DetailConsoleError (js "加载穴位详情失败:") e) ;;~
  detail_emit (ShowToast (js "加载失败")).

Definition loadAcupoint (net : detail_network) (code : value) : DM unit :=
  dtry_catch (loadAcupoint_try net code) loadAcupoint_catch.

(** [onLoad(options)] of the detail page, with [options.code] as
    argument. *)
Definition detail_onLoad (net : detail_network) (code : value) : DM unit :=
  if ToBoolean code then loadAcupoint net code else dret tt.

(** [onImageTap(e)] of the detail page, with [e.currentTarget.dataset.src]
    as argument. *)
Definition detail_onImageTap (src : value) : DM unit :=
  fun d => (Ok tt, d, [PreviewImage src (images d)]).

(** Reading a trace of the detail page. *)
Fixpoint detail_requests (t : list detail_effect) : list jsstring :=
  match t with
  | [] => []
  | DetailRequest url :: t' => url :: detail_requests t'
  | _ :: t' => detail_requests t'
  end.

Fixpoint toasts (t : list detail_effect) : list jsstring :=
  match t with
  | [] => []
  | ShowToast title :: t' => title :: toasts t'
  | _ :: t' => toasts t'
  end.

End Model.

(** * A concrete page

    A page whose JSON numbers are integers and whose server lives at
    [https://tcm.example], with a few states and answers of the server. *)

Module Demo.

#[local] Instance env : Environment :=
  {| num := Z;
     num_truthy := fun z => negb (z =? 0);
     num_toString := Number_toString;
     apiBase := js "https://tcm.example" |}.

Definition str (s : string) : value := VStr (js s).

Definition props (l : list (string * value)) : list (jsstring * value) :=
  map (fun p => (js (fst p), snd p)) l.

Definition point (code : string) : value :=
  VObj (props [("code", str code)]%string).

(** The user has typed a symptom, with blanks around it. *)
Definition asking : page_data :=
  mkData [] (js " 我头痛 ") false (js "bottom") 0 [].

(** Nothing but blanks in the input box. *)
Definition blank : page_data :=
  mkData [] (js "   ") false (js "bottom") 0 [].

Definition ten_paths : list jsstring :=
  map js ["/i/0.png"; "/i/1.png"; "/i/2.png"; "/i/3.png"; "/i/4.png";
          "/i/5.png"; "/i/6.png"; "/i/7.png"; "/i/8.png"; "/i/9.png"]%string.

Definition ten_images : list (jsstring * value) :=
  [(js "images", VArr (map VStr ten_paths))].

(** An image server that knows the first point only. *)
Definition images_first_only (position : nat) (url : jsstring) : wx_result :=
  match position with
  | O => WxSuccess 200 (VObj ten_images)
  | _ => WxFail (js "request:fail")
  end.

Definition answering (body : list (jsstring * value)) : network :=
  mkNetwork (fun _ => WxSuccess 200 (VObj body)) images_first_only.

Definition offline : network :=
  mkNetwork (fun _ => WxFail (js "request:fail")) images_first_only.

Definition llm_body : list (jsstring * value) :=
  props [("success", VBool true); ("mode", str "llm");
         ("llm_response", str "text");
         ("recommended_acupoints", VArr [point "LI4"])]%string.

Definition headache : list (jsstring * value) :=
  props [("symptom", str "头痛");
         ("acupoints", VArr [point "GB20"]);
         ("disclaimer", str "D")]%string.

Definition keyword_body : list (jsstring * value) :=
  props [("success", VBool true); ("diagnosis", VObj headache)]%string.

Definition not_found_body : list (jsstring * value) :=
  props [("success", VBool false)]%string.

Definition no_diagnosis_body : list (jsstring * value) :=
  props [("success", VBool true)]%string.

(** Three points, the request for the second of which fails. *)
Definition second_fails : network :=
  mkNetwork (fun _ => WxFail (js "request:fail"))
            (fun position _ =>
               match position with
               | 1%nat => WxSuccess 500 VNull
               | _ => WxSuccess 200 (VObj ten_images)
               end).

(** A response whose list of points is an object. *)
Definition unusable_body : list (jsstring * value) :=
  props [("success", VBool true); ("mode", str "llm");
         ("llm_response", str "text");
         ("recommended_acupoints", VObj [])]%string.

(** A short session: a symptom typed and sent, then a quick tap. *)
Definition short_session : list ui_event :=
  [Typed (js " 我头痛 "); Send (answering llm_body);
   QuickTap offline (js "我失眠睡不着")].

(** Answers to the detail page. *)
Definition hegu : value := VObj (props [("chinese_name", str "合谷")]%string).

Definition found_body : list (jsstring * value) :=
  props [("success", VBool true); ("acupoint", hegu)]%string.

Definition detail_found : detail_network :=
  fun k _ =>
    match k with
    | O => WxSuccess 200 (VObj found_body)
    | _ => WxSuccess 200 (VObj ten_images)
    end.

Definition detail_offline : detail_network :=
  fun _ _ => WxFail (js "request:fail").

Definition detail_images_fail : detail_network :=
  fun k _ =>
    match k with
    | O => WxSuccess 200 (VObj found_body)
    | _ => WxFail (js "request:fail")
    end.

Definition detail_not_found : detail_network :=
  fun k _ =>
    match k with
    | O => WxSuccess 404 (VObj not_found_body)
    | _ => WxSuccess 200 (VObj ten_images)
    end.

Definition detail_no_acupoint : detail_network :=
  fun k _ =>
    match k with
    | O => WxSuccess 200 (VObj no_diagnosis_body)
    | _ => WxSuccess 200 (VObj ten_images)
    end.



End Demo.

(** * Facts *)

Section Facts.

Context {env : Environment}.

(** ** Basic facts *)

Lemma str_eqb_refl (a : jsstring) : str_eqb a a = true.
Proof.
  induction a as [|x a IH]; simpl; [reflexivity|].
  now rewrite N.eqb_refl, IH.
Qed.

Lemma str_eqb_eq (a b : jsstring) : str_eqb a b = true <-> a = b.
Proof.
  split; [|intros ->; apply str_eqb_refl].
  revert b; induction a as [|x a IH]; intros [|y b]; simpl; try easy.
  intros H; apply andb_true_iff in H as [Hx Hab].
  apply N.eqb_eq in Hx; subst; f_equal; auto.
Qed.

Lemma lookup_obj_set_same k v props : lookup k (obj_set k v props) = Some v.
Proof.
  induction props as [|[k' v'] rest IH]; simpl.
  - now rewrite str_eqb_refl.
  - destruct (str_eqb k k') eqn:E; simpl.
    + now rewrite str_eqb_refl.
    + now rewrite E.
Qed.

Lemma lookup_obj_set_other k k' v props :
  k <> k' -> lookup k' (obj_set k v props) = lookup k' props.
Proof.
  intros Hne; induction props as [|[k0 v0] rest IH]; simpl.
  - destruct (str_eqb k' k) eqn:E; [|reflexivity].
    apply str_eqb_eq in E; congruence.
  - destruct (str_eqb k k0) eqn:E; simpl.
    + apply str_eqb_eq in E; subst k0.
      destruct (str_eqb k' k) eqn:E'; [|reflexivity].
      apply str_eqb_eq in E'; congruence.
    + destruct (str_eqb k' k0); auto.
Qed.

Lemma renders_app t1 t2 : renders (t1 ++ t2) = renders t1 ++ renders t2.
Proof.
  induction t1 as [|[d|m u b|l e] t1 IH]; simpl; congruence.
Qed.

Lemma filter_not_loading_accepted log id1 c id2 :
  filter not_loading (log ++ [UserMsg id1 c; LoadingMsg id2])
  = filter not_loading log ++ [UserMsg id1 c].
Proof. now rewrite filter_app. Qed.

(** ** The image loader never fails *)

Lemma getImages_run net position code d :
  exists t, getImages net position code d = (fetched net position code, d, t)
            /\ renders t = [].
Proof.
  unfold getImages, fetched, bind, lift, wx_request, ret.
  destruct (ToString code) as [c|e]; simpl; [|eauto].
  destruct (image_response net position _) as [sc data|msg]; simpl.
  - destruct (sc =? 200); simpl; eauto.
  - eauto.
Qed.

Lemma load_one_run net position point results d :
  exists t,
    load_one net position point results d
    = (Ok (results ++ [with_images point (point_images net position point)]),
       d, t)
    /\ renders t = [].
Proof.
  unfold load_one, point_images, try_catch, bind, lift, console_error, ret.
  destruct (Get point (js "code")) as [code|e]; simpl; [|eauto].
  destruct (getImages_run net position code d) as (t & -> & Ht).
  destruct (fetched net position code) as [imgRes|e]; simpl.
  - destruct (image_urls imgRes) as [images|e]; simpl.
    + exists (t ++ []). rewrite !app_nil_r. auto.
    + eexists; split; [reflexivity|].
      rewrite !renders_app, Ht. reflexivity.
  - eexists; split; [reflexivity|].
    rewrite !renders_app, Ht. reflexivity.
Qed.

Lemma load_loop_run net points : forall position results d,
  exists t,
    load_loop net position points results d
    = (Ok (results ++ resolved net position points), d, t)
    /\ renders t = [].
Proof.
  induction points as [|point rest IH]; intros position results d; simpl.
  - exists []. unfold ret. now rewrite app_nil_r.
  - unfold bind.
    destruct (load_one_run net position point results d) as (t1 & -> & H1).
    destruct (IH (S position)
                 (results ++ [with_images point (point_images net position point)])
                 d) as (t2 & -> & H2).
    exists (t1 ++ t2). rewrite <- app_assoc. simpl.
    rewrite renders_app, H1, H2. auto.
Qed.

Lemma resolved_length net points : forall position,
  List.length (resolved net position points) = List.length points.
Proof. induction points; intros; simpl; auto. Qed.

Lemma resolved_nth net points : forall position i point,
  nth_error points i = Some point ->
  nth_error (resolved net position points) i
  = Some (with_images point (point_images net (position + i) point)).
Proof.
  induction points as [|p rest IH]; intros position [|i] point H;
    simpl in *; try discriminate.
  - injection H as ->. now rewrite Nat.add_0_r.
  - rewrite (IH (S position) i point H). now rewrite Nat.add_succ_r.
Qed.

Lemma loadAcupointImages_array net points d :
  exists t,
    loadAcupointImages net (VArr points) d = (Ok (resolved net 0 points), d, t)
    /\ renders t = [].
Proof.
  unfold loadAcupointImages; simpl.
  destruct (load_loop_run net points 0%nat [] d) as (t & H & Ht).
  exists t. now rewrite H.
Qed.

Lemma point_images_local net net' position point :
  (forall url, image_response net' position url = image_response net position url) ->
  point_images net' position point = point_images net position point.
Proof.
  intros H. unfold point_images, fetched.
  destruct (Get point (js "code")) as [code|]; simpl; [|reflexivity].
  destruct (ToString code) as [c|]; simpl; [|reflexivity].
  now rewrite H.
Qed.

Lemma point_images_failed net position point code c :
  Get point (js "code") = Ok code ->
  ToString code = Ok c ->
  (forall data,
     image_response net position (apiBase ++ js "/images/" ++ c)
     <> WxSuccess 200 data) ->
  point_images net position point = [].
Proof.
  intros Hcode Hc Hfail. unfold point_images, fetched.
  rewrite Hcode; simpl. rewrite Hc; simpl.
  destruct (image_response net position _) as [sc data|msg]; [|reflexivity].
  destruct (sc =? 200) eqn:E; [|reflexivity].
  apply Z.eqb_eq in E; subst sc. now destruct (Hfail data).
Qed.

Lemma map_result_prefix (l : list jsstring) :
  map_result
    (fun img => rbind (ToString img) (fun s => Ok (VStr (apiBase ++ s))))
    (map VStr l)
  = Ok (map (fun path => VStr (apiBase ++ path)) l).
Proof.
  induction l as [|p l IH]; simpl; [reflexivity|]. now rewrite IH.
Qed.

Lemma image_urls_paths props (paths : list jsstring) :
  lookup (js "images") props = Some (VArr (map VStr paths)) ->
  image_urls (VObj props)
  = Ok (map (fun path => VStr (apiBase ++ path)) (firstn 6 paths)).
Proof.
  intros H. unfold image_urls, Get, rbind. rewrite H.
  unfold or_else, ToBoolean. rewrite firstn_map. apply map_result_prefix.
Qed.

(** C4. [loadAcupointImages], given an array of points, always returns
    normally, with one entry per point and in the same order.  Entry [i]
    is [{...point_i, images}]: it has every field of [point_i] (a field of
    the point that is itself called [images] being the one the resolved
    list is stored in), its [images] depend on the answer to the request
    made for position [i] only, and they are the empty list when that
    request fails or is answered with a status other than 200. *)
Theorem resolve_total_positional (net : network) (points : list value)
        (d : page_data) :
  exists out t,
    loadAcupointImages net (VArr points) d = (Ok out, d, t)
    /\ List.length out = List.length points
    /\ forall i point,
        nth_error points i = Some point ->
        exists oprops images,
          nth_error out i = Some (VObj oprops)
          /\ lookup (js "images") oprops = Some (VArr images)
          /\ (forall k, k <> js "images" ->
                        lookup k oprops = lookup k (spread point))
          /\ (lookup (js "images") (spread point) = None ->
              forall k v, lookup k (spread point) = Some v ->
                          lookup k oprops = Some v)
          /\ (forall net' out' t',
                 (forall url, image_response net' i url
                              = image_response net i url) ->
                 loadAcupointImages net' (VArr points) d = (Ok out', d, t') ->
                 nth_error out' i = Some (VObj oprops))
          /\ (forall code c,
                 Get point (js "code") = Ok code ->
                 ToString code = Ok c ->
                 (forall data,
                     image_response net i (apiBase ++ js "/images/" ++ c)
                     <> WxSuccess 200 data) ->
                 images = []).
Proof.
  destruct (loadAcupointImages_array net points d) as (t & Hrun & _).
  exists (resolved net 0 points), t.
  split; [exact Hrun|]. split; [apply resolved_length|].
  intros i point Hi.
  exists (obj_set (js "images") (VArr (point_images net i point)) (spread point)),
         (point_images net i point).
  split; [exact (resolved_nth net points 0 i point Hi)|].
  split; [apply lookup_obj_set_same|].
  split; [intros k Hk; apply lookup_obj_set_other; congruence|].
  split.
  - intros Hnone k v Hkv.
    rewrite lookup_obj_set_other; [exact Hkv|].
    intros <-. congruence.
  - split.
    + intros net' out' t' Hsame Hrun'.
      destruct (loadAcupointImages_array net' points d) as (t2 & Hrun2 & _).
      rewrite Hrun2 in Hrun'. injection Hrun' as <- _.
      rewrite (resolved_nth net' points 0 i point Hi). simpl.
      unfold with_images. now rewrite (point_images_local net net' i point Hsame).
    + intros code c Hcode Hc Hfail.
      exact (point_images_failed net i point code c Hcode Hc Hfail).
Qed.

(** C5. When the request for the point at position [i] is answered with
    status 200 and a body whose [images] is a list of [n] paths, the
    resolved point's [images] are the first [min n 6] of them, in the
    server's order, each prefixed with [apiBase]. *)
Theorem image_cap (net : network) (points : list value) (d : page_data)
        (i : nat) (point code : value) (c : jsstring)
        (body : list (jsstring * value)) (paths : list jsstring) :
  nth_error points i = Some point ->
  Get point (js "code") = Ok code ->
  ToString code = Ok c ->
  image_response net i (apiBase ++ js "/images/" ++ c)
  = WxSuccess 200 (VObj body) ->
  lookup (js "images") body = Some (VArr (map VStr paths)) ->
  exists out t oprops urls,
    loadAcupointImages net (VArr points) d = (Ok out, d, t)
    /\ nth_error out i = Some (VObj oprops)
    /\ lookup (js "images") oprops = Some (VArr urls)
    /\ urls = map (fun path => VStr (apiBase ++ path)) (firstn 6 paths)
    /\ List.length urls = Nat.min (List.length paths) 6.
Proof.
  intros Hi Hcode Hc Hresp Himgs.
  destruct (loadAcupointImages_array net points d) as (t & Hrun & _).
  exists (resolved net 0 points), t,
         (obj_set (js "images") (VArr (point_images net i point)) (spread point)),
         (point_images net i point).
  split; [exact Hrun|].
  split; [exact (resolved_nth net points 0 i point Hi)|].
  split; [apply lookup_obj_set_same|].
  assert (E : point_images net i point
              = map (fun path => VStr (apiBase ++ path)) (firstn 6 paths)).
  { unfold point_images, fetched. rewrite Hcode. cbn [rbind].
    rewrite Hc. cbn [rbind]. rewrite Hresp, Z.eqb_refl. cbn [rbind].
    now rewrite (image_urls_paths body paths Himgs). }
  split; [exact E|].
  rewrite E, length_map, length_firstn. apply Nat.min_comm.
Qed.

(** ** Running a submission *)

Lemma sendMessage_rejected net d :
  trim (inputValue d) = [] \/ sending d = true ->
  sendMessage net d = (Ok tt, d, []).
Proof.
  intros H. unfold sendMessage, bind, getData, ret.
  destruct H as [-> | ->]; simpl; [reflexivity|].
  now rewrite orb_true_r.
Qed.

Lemma sendMessage_run net d :
  is_accepted d ->
  sendMessage net d
  = match try_catch (sendMessage_try net (trim (inputValue d)))
                    sendMessage_catch (accepted d) with
    | (Ok _, d2, t) =>
      (Ok tt, finalized d2, Render (accepted d) :: t ++ [Render (finalized d2)])
    | (Throw e, d2, t) => (Throw e, d2, Render (accepted d) :: t)
    end.
Proof.
  intros [Hne Hs]. unfold sendMessage, accepted, bind, getData, setData.
  rewrite Hs.
  destruct (trim (inputValue d)) as [|c m] eqn:E; [congruence|].
  cbn [orb].
  destruct (try_catch _ _ _) as [[[u|e] d2] t]; reflexivity.
Qed.

Lemma sendMessage_catch_run e d :
  sendMessage_catch e d
  = (Ok tt, failed d, [ConsoleError (js "API错误:") e; Render (failed d)]).
Proof. reflexivity. Qed.

Lemma submission_of_try_ok net d terminal t :
  is_accepted d ->
  sendMessage_try net (trim (inputValue d)) (accepted d)
  = (Ok tt, settled (accepted d) terminal,
     t ++ [Render (settled (accepted d) terminal)]) ->
  renders t = [] ->
  submission net d (settled (accepted d) terminal).
Proof.
  intros Ha Htry Ht. unfold submission.
  rewrite (sendMessage_run net d Ha). unfold try_catch. rewrite Htry.
  eexists; split; [reflexivity|].
  simpl. rewrite !renders_app, Ht. reflexivity.
Qed.

Lemma submission_of_try_throw net d e t :
  is_accepted d ->
  sendMessage_try net (trim (inputValue d)) (accepted d)
  = (Throw e, accepted d, t) ->
  renders t = [] ->
  submission net d (failed (accepted d)).
Proof.
  intros Ha Htry Ht. unfold submission.
  rewrite (sendMessage_run net d Ha). unfold try_catch. rewrite Htry.
  rewrite sendMessage_catch_run.
  eexists; split; [reflexivity|].
  simpl. rewrite !renders_app, Ht. reflexivity.
Qed.

Lemma callChatAPI_run net message d :
  callChatAPI net message d
  = (match chat_response net message with
     | WxSuccess statusCode data =>
       if statusCode =? 200 then Ok data else Throw (HttpError statusCode)
     | WxFail errMsg => Throw (RequestFailed errMsg)
     end,
     d, [Request POST (apiBase ++ js "/chat") (Some message)]).
Proof.
  unfold callChatAPI, bind, wx_request, ret, throw.
  destruct (chat_response net message) as [sc data|msg]; [|reflexivity].
  destruct (sc =? 200); reflexivity.
Qed.

Lemma loadAcupointImages_any net v d :
  exists r t, loadAcupointImages net v d = (r, d, t) /\ renders t = [].
Proof.
  unfold loadAcupointImages.
  destruct (iterate v) as [points|].
  - destruct (load_loop_run net points 0%nat [] d) as (t & H & Ht).
    rewrite H. eauto.
  - unfold throw. eauto.
Qed.

Lemma Get_object props k : Get (VObj props) k = Ok (field props k).
Proof. unfold Get, field. now destruct (lookup k props). Qed.

Lemma Get_defined res k v k' :
  Get res k = Ok v -> exists v', Get res k' = Ok v'.
Proof.
  destruct res; simpl; try discriminate; eauto.
  destruct (lookup k' props); eauto.
Qed.

(** A response that reports success is an object. *)
Lemma Get_truthy_object res k v :
  Get res k = Ok v -> ToBoolean v = true -> exists props, res = VObj props.
Proof.
  destruct res; simpl; try discriminate;
    try (intros [= <-]; discriminate); eauto.
Qed.

Lemma try_transport_failure net message d :
  transport_failure (chat_response net message) ->
  exists e t, sendMessage_try net message d = (Throw e, d, t)
              /\ renders t = [].
Proof.
  intros H. unfold sendMessage_try, bind at 1.
  rewrite callChatAPI_run.
  destruct (chat_response net message) as [sc data|msg]; simpl in H.
  - apply Z.eqb_neq in H. rewrite H. eauto.
  - eauto.
Qed.

(** ** The message built from a response *)


Lemma response_llm net props d points t :
  ToBoolean (field props (js "success")) = true ->
  strict_eq_str (field props (js "mode")) (js "llm") = true ->
  loadAcupointImages net
    (or_else (field props (js "recommended_acupoints")) (VArr [])) d
  = (Ok points, d, t) ->
  response_message net (VObj props) d
  = (Ok (DiagnosisMsg (messageId d + 1) [] (field props (js "llm_response"))
                      points (VStr [])), d, t).
Proof.
  intros Hs Hmode Hload. unfold response_message, bind, getData, lift, ret.
  rewrite !Get_object. cbv beta iota. rewrite Hs. cbn [negb]. cbv beta iota.
  rewrite Hmode. cbv beta iota. rewrite Hload. cbn [app].
  now rewrite app_nil_r.
Qed.

Lemma response_keyword net props d diag symptom label points t :
  ToBoolean (field props (js "success")) = true ->
  strict_eq_str (field props (js "mode")) (js "llm") = false ->
  field props (js "diagnosis") = VObj diag ->
  field diag (js "symptom") = symptom ->
  ToString symptom = Ok label ->
  loadAcupointImages net (or_else (field diag (js "acupoints")) (VArr [])) d
  = (Ok points, d, t) ->
  response_message net (VObj props) d
  = (Ok (DiagnosisMsg (messageId d + 1) (title_for label) (VStr []) points
                      (or_else (field diag (js "disclaimer")) (VStr []))),
     d, t).
Proof.
  intros Hs Hmode Hdiag Hsym Hlabel Hload.
  unfold response_message, bind, getData, lift, ret.
  rewrite !Get_object. cbv beta iota. rewrite Hs. cbn [negb]. cbv beta iota.
  rewrite Hmode, Hdiag. cbv beta iota.
  rewrite !Get_object, Hsym. cbv beta iota. rewrite Hlabel. cbv beta iota.
  rewrite Hload. cbn [app].
  now rewrite app_nil_r.
Qed.

Lemma response_no_diagnosis net props d :
  ToBoolean (field props (js "success")) = true ->
  strict_eq_str (field props (js "mode")) (js "llm") = false ->
  field props (js "diagnosis") = VUndefined
  \/ field props (js "diagnosis") = VNull ->
  response_message net (VObj props) d = (Throw TypeError, d, []).
Proof.
  intros Hs Hmode Hdiag. unfold response_message, bind, getData, lift, ret.
  rewrite !Get_object. cbv beta iota. rewrite Hs. cbn [negb]. cbv beta iota.
  rewrite Hmode. now destruct Hdiag as [-> | ->].
Qed.

(** Whatever the response, building the message renders nothing and leaves
    the data alone; the message, when there is one, is a terminal one. *)
Lemma response_message_any net res d :
  exists r t,
    response_message net res d = (r, d, t)
    /\ renders t = []
    /\ forall m, r = Ok m -> terminal_for d m.
Proof.
  unfold response_message, bind, getData, lift, ret, terminal_for.
  destruct (Get res (js "success")) as [success|e];
    [|do 2 eexists; repeat split; discriminate].
  destruct (ToBoolean success); cbn [negb].
  - destruct (Get res (js "mode")) as [mode|e];
      [|do 2 eexists; repeat split; discriminate].
    destruct (strict_eq_str mode (js "llm")).
    + destruct (Get res (js "llm_response")) as [llm|e];
        [|do 2 eexists; repeat split; discriminate].
      destruct (Get res (js "recommended_acupoints")) as [recommended|e];
        [|do 2 eexists; repeat split; discriminate].
      destruct (loadAcupointImages_any net (or_else recommended (VArr [])) d)
        as ([points|e] & t & -> & Ht).
      * do 2 eexists. split; [reflexivity|]. cbn [app].
        rewrite !renders_app, Ht. split; [reflexivity|].
        intros m [= <-]. simpl. auto.
      * do 2 eexists. split; [reflexivity|]. cbn [app].
        rewrite Ht. split; [reflexivity|discriminate].
    + destruct (Get res (js "diagnosis")) as [diag|e];
        [|do 2 eexists; repeat split; discriminate].
      destruct (Get diag (js "symptom")) as [symptom|e];
        [|do 2 eexists; repeat split; discriminate].
      destruct (ToString symptom) as [label|e];
        [|do 2 eexists; repeat split; discriminate].
      destruct (Get diag (js "acupoints")) as [acupoints|e];
        [|do 2 eexists; repeat split; discriminate].
      destruct (loadAcupointImages_any net (or_else acupoints (VArr [])) d)
        as ([points|e] & t & -> & Ht).
      * destruct (Get diag (js "disclaimer")) as [disclaimer|e].
        -- do 2 eexists. split; [reflexivity|]. cbn [app].
           rewrite !renders_app, Ht. split; [reflexivity|].
           intros m [= <-]. simpl. auto.
        -- do 2 eexists. split; [reflexivity|]. cbn [app].
           rewrite !renders_app, Ht. split; [reflexivity|discriminate].
      * do 2 eexists. split; [reflexivity|]. cbn [app].
        rewrite Ht. split; [reflexivity|discriminate].
  - destruct (Get res (js "message")) as [msg|e].
    + do 2 eexists. split; [reflexivity|]. split; [reflexivity|].
      intros m [= <-]. simpl. auto.
    + do 2 eexists; repeat split; discriminate.
Qed.

(** [sendMessage_try] in terms of its two awaited steps. *)
Lemma sendMessage_try_run net message d :
  sendMessage_try net message d
  = match chat_response net message with
    | WxSuccess statusCode res =>
      if statusCode =? 200 then
        match response_message net res d with
        | (Ok terminal, d1, t) =>
          let d2 :=
            {| messages := filter not_loading (messages d) ++ [terminal];
               inputValue := inputValue d1;
               sending := sending d1;
               scrollToView := msg_anchor (messageId d1 + 1);
               messageId := messageId d1 + 1;
               quickSymptoms := quickSymptoms d1 |} in
          (Ok tt, d2,
           Request POST (apiBase ++ js "/chat") (Some message)
                   :: t ++ [Render d2])
        | (Throw e, d1, t) =>
          (Throw e, d1,
           Request POST (apiBase ++ js "/chat") (Some message) :: t)
        end
      else (Throw (HttpError statusCode), d,
            [Request POST (apiBase ++ js "/chat") (Some message)])
    | WxFail errMsg =>
      (Throw (RequestFailed errMsg), d,
       [Request POST (apiBase ++ js "/chat") (Some message)])
    end.
Proof.
  unfold sendMessage_try, bind at 1. rewrite callChatAPI_run.
  destruct (chat_response net message) as [sc res|msg]; [|reflexivity].
  destruct (sc =? 200); [|reflexivity].
  unfold bind, getData, setData.
  destruct (response_message net res d) as [[[terminal|e] d1] t]; reflexivity.
Qed.

Lemma submission_of_response net d res terminal t :
  is_accepted d ->
  chat_response net (trim (inputValue d)) = WxSuccess 200 res ->
  response_message net res (accepted d) = (Ok terminal, accepted d, t) ->
  renders t = [] ->
  submission net d (settled (accepted d) terminal).
Proof.
  intros Ha Hresp Hmsg Ht.
  apply (submission_of_try_ok net d terminal
           (Request POST (apiBase ++ js "/chat") (Some (trim (inputValue d)))
                    :: t) Ha).
  - rewrite sendMessage_try_run, Hresp, Z.eqb_refl, Hmsg. reflexivity.
  - exact Ht.
Qed.

Lemma submission_of_response_throw net d res e t :
  is_accepted d ->
  chat_response net (trim (inputValue d)) = WxSuccess 200 res ->
  response_message net res (accepted d) = (Throw e, accepted d, t) ->
  renders t = [] ->
  submission net d (failed (accepted d)).
Proof.
  intros Ha Hresp Hmsg Ht.
  apply (submission_of_try_throw net d e
           (Request POST (apiBase ++ js "/chat") (Some (trim (inputValue d)))
                    :: t) Ha).
  - rewrite sendMessage_try_run, Hresp, Z.eqb_refl, Hmsg. reflexivity.
  - exact Ht.
Qed.

Lemma submission_of_transport_failure net d :
  is_accepted d ->
  transport_failure (chat_response net (trim (inputValue d))) ->
  submission net d (failed (accepted d)).
Proof.
  intros Ha Hfail.
  destruct (try_transport_failure net (trim (inputValue d)) (accepted d) Hfail)
    as (e & t & Htry & Ht).
  exact (submission_of_try_throw net d e t Ha Htry Ht).
Qed.

(** Every accepted submission ends in one of two ways. *)
Lemma submission_cases net d :
  is_accepted d ->
  (exists terminal,
      terminal_for (accepted d) terminal
      /\ submission net d (settled (accepted d) terminal))
  \/ submission net d (failed (accepted d)).
Proof.
  intros Ha.
  destruct (chat_response net (trim (inputValue d))) as [sc res|msg] eqn:Hresp.
  - destruct (Z.eq_dec sc 200) as [->|Hsc].
    + destruct (response_message_any net res (accepted d))
        as ([terminal|e] & t & Hmsg & Ht & Hterm).
      * left. exists terminal. split; [now apply Hterm|].
        exact (submission_of_response net d res terminal t Ha Hresp Hmsg Ht).
      * right.
        exact (submission_of_response_throw net d res e t Ha Hresp Hmsg Ht).
    + right. apply submission_of_transport_failure; [exact Ha|].
      now rewrite Hresp.
  - right. apply submission_of_transport_failure; [exact Ha|].
    now rewrite Hresp.
Qed.

Lemma failed_terminal d :
  terminal_for d (TextMsg (messageId d + 1) (VStr NETWORK_ERROR_TEXT)).
Proof. unfold terminal_for; simpl; auto. Qed.

Lemma has_loading_app l1 l2 :
  has_loading (l1 ++ l2) = has_loading l1 || has_loading l2.
Proof. apply existsb_app. Qed.

Lemma has_loading_filter log : has_loading (filter not_loading log) = false.
Proof.
  unfold has_loading. induction log as [|m log IH]; simpl; [reflexivity|].
  destruct (not_loading m) eqn:E; simpl; [now rewrite E|exact IH].
Qed.

Lemma terminal_not_loading d m : terminal_for d m -> not_loading m = true.
Proof.
  intros (_ & _ & [H|H]); unfold not_loading; now rewrite H.
Qed.

(** ** The guard *)

(** C2. When the trimmed input is empty or a submission is pending,
    [sendMessage] returns normally without any effect: nothing is rendered,
    no request is issued, nothing is logged, and the page data (messages,
    messageId, sending, inputValue and the rest) is the same record. *)
Theorem guard_is_noop (net : network) (d : page_data) :
  trim (inputValue d) = [] \/ sending d = true ->
  sendMessage net d = (Ok tt, d, []).
Proof. apply sendMessage_rejected. Qed.

(** While a submission is pending a further call is rejected and a quick
    tap does no more than typing does. *)
Lemma pending_only_types net d v :
  sending d = true ->
  sendMessage net d = (Ok tt, d, [])
  /\ onQuickTap net v d = onInputChange v d
  /\ sending (typed v d) = true
  /\ messages (typed v d) = messages d
  /\ messageId (typed v d) = messageId d.
Proof.
  intros Hs. split; [apply sendMessage_rejected; now right|].
  split; [|repeat split; exact Hs].
  unfold onQuickTap, bind, onInputChange, setData.
  rewrite sendMessage_rejected by now right. reflexivity.
Qed.

(** ** The loading bracket *)

Lemma submission_logs net d d2 :
  submission net d d2 ->
  exists t,
    sendMessage net d = (Ok tt, finalized d2, t)
    /\ map messages (renders t)
       = [messages (accepted d); messages d2; messages d2]
    /\ map sending (renders t) = [true; sending d2; false].
Proof.
  intros (t & Hrun & Hr). exists t. split; [exact Hrun|].
  rewrite Hr. split; reflexivity.
Qed.

(** C1. An accepted submission renders the log three times: after
    appending the user's message and the loading message, after removing
    the loading message and appending the terminal message, and once more
    (unchanged) when [sending] is cleared.  The same holds whatever the
    server answers.  A rendered log has a loading message exactly when it
    does not have the terminal message. *)
Theorem loading_bracket (net : network) (d : page_data) :
  is_accepted d ->
  Forall (fun m => msg_id m <= messageId d) (messages d) ->
  exists terminal t d',
    sendMessage net d = (Ok tt, d', t)
    /\ msg_id terminal = messageId d + 3
    /\ isUser terminal = false
    /\ (type_of terminal = Some text \/ type_of terminal = Some diagnosis)
    /\ let user := UserMsg (messageId d + 1) (trim (inputValue d)) in
       let ld := LoadingMsg (messageId d + 2) in
       let bracket :=
         [Append user; Append ld; RemoveLoading; Append terminal] in
       map messages (renders t)
       = [apply_ops (firstn 2 bracket) (messages d);
          apply_ops bracket (messages d);
          apply_ops bracket (messages d)]
       /\ messages d' = apply_ops bracket (messages d)
       /\ Forall (fun log =>
                    (has_loading log = true /\ ~ In terminal log)
                    \/ (has_loading log = false /\ In terminal log))
                 (map messages (renders t)).
Proof.
  intros Ha Hids.
  assert (Hterm : exists terminal d2,
             terminal_for (accepted d) terminal
             /\ submission net d d2
             /\ messages d2
                = filter not_loading (messages (accepted d)) ++ [terminal]).
  { destruct (submission_cases net d Ha) as [(terminal & Ht & Hs)|Hs].
    - exists terminal, (settled (accepted d) terminal). auto.
    - exists (TextMsg (messageId (accepted d) + 1) (VStr NETWORK_ERROR_TEXT)),
             (failed (accepted d)).
      split; [apply failed_terminal|auto]. }
  destruct Hterm as (terminal & d2 & Hterm & Hs & Hlog).
  destruct (submission_logs net d d2 Hs) as (t & Hrun & Hlogs & _).
  pose proof (terminal_not_loading _ _ Hterm) as Hnl.
  destruct Hterm as (Hid & Huser & Htype). simpl in Hid.
  exists terminal, t, (finalized d2).
  split; [exact Hrun|]. split; [lia|]. split; [exact Huser|].
  split; [exact Htype|].
  assert (E1 : apply_ops
                 (firstn 2 [Append (UserMsg (messageId d + 1) (trim (inputValue d)));
                            Append (LoadingMsg (messageId d + 2));
                            RemoveLoading; Append terminal]) (messages d)
               = messages (accepted d)).
  { simpl. rewrite <- app_assoc. simpl.
    now replace (messageId d + 1 + 1) with (messageId d + 2) by lia. }
  assert (E2 : apply_ops
                 [Append (UserMsg (messageId d + 1) (trim (inputValue d)));
                  Append (LoadingMsg (messageId d + 2));
                  RemoveLoading; Append terminal] (messages d)
               = messages d2).
  { rewrite Hlog. simpl. rewrite <- app_assoc. simpl.
    now replace (messageId d + 1 + 1) with (messageId d + 2) by lia. }
  cbv zeta. rewrite E1, E2, Hlogs.
  split; [reflexivity|]. split; [reflexivity|].
  assert (L1 : has_loading (messages (accepted d)) = true
               /\ ~ In terminal (messages (accepted d))).
  { split.
    - simpl. rewrite has_loading_app. simpl. apply orb_true_r.
    - simpl. intros Hin. apply in_app_or in Hin as [Hin|Hin].
      + rewrite Forall_forall in Hids. apply Hids in Hin. lia.
      + simpl in Hin. destruct Hin as [<-|[<-|[]]]; simpl in *; lia. }
  assert (L2 : has_loading (messages d2) = false /\ In terminal (messages d2)).
  { rewrite Hlog. split.
    - rewrite has_loading_app, has_loading_filter. simpl.
      now rewrite Hnl.
    - apply in_or_app. right. now left. }
  constructor; [left; exact L1|].
  constructor; [right; exact L2|].
  constructor; [right; exact L2|].
  constructor.
Qed.

(** ** Finalization *)

Lemma finalized_accepts d2 v :
  trim v <> [] -> is_accepted (typed v (finalized d2)).
Proof. intros H. split; [exact H|reflexivity]. Qed.

Lemma accepted_submission_shows_input net d :
  is_accepted d ->
  exists t d',
    sendMessage net d = (Ok tt, d', t)
    /\ hd_error (renders t) = Some (accepted d)
    /\ In (UserMsg (messageId d + 1) (trim (inputValue d))) (messages d').
Proof.
  intros Ha.
  assert (H : exists d2, submission net d d2
                         /\ exists terminal,
                            messages d2 = filter not_loading (messages (accepted d))
                                          ++ [terminal]).
  { destruct (submission_cases net d Ha) as [(terminal & _ & Hs)|Hs];
      eexists; (split; [exact Hs|]); eexists; reflexivity. }
  destruct H as (d2 & (t & Hrun & Hr) & terminal & Hlog).
  exists t, (finalized d2). split; [exact Hrun|].
  rewrite Hr. split; [reflexivity|].
  simpl. rewrite Hlog. simpl. rewrite filter_not_loading_accepted.
  rewrite <- app_assoc. apply in_or_app. right. now left.
Qed.

(** C3. Whatever the server answers (including answers that make the
    processing of the response throw), an accepted submission returns
    normally, and among the data it renders the last one, and only the
    last one, has [sending] false.  From the data it leaves, a submission
    of any input that is not blank is accepted again. *)
Theorem sending_cleared_once (net : network) (d : page_data) :
  is_accepted d ->
  exists t d',
    sendMessage net d = (Ok tt, d', t)
    /\ sending d' = false
    /\ (exists before,
           renders t = before ++ [d']
           /\ Forall (fun r => sending r = true) before)
    /\ forall (net' : network) (v : jsstring),
        trim v <> [] ->
        exists t' d'',
          sendMessage net' (typed v d') = (Ok tt, d'', t')
          /\ hd_error (renders t') = Some (accepted (typed v d'))
          /\ In (UserMsg (messageId d' + 1) (trim v)) (messages d'').
Proof.
  intros Ha.
  assert (H : exists d2, submission net d d2 /\ sending d2 = true).
  { destruct (submission_cases net d Ha) as [(terminal & _ & Hs)|Hs];
      eexists; (split; [exact Hs|reflexivity]). }
  destruct H as (d2 & (t & Hrun & Hr) & Hs2).
  exists t, (finalized d2). split; [exact Hrun|]. split; [reflexivity|].
  split.
  - exists [accepted d; d2]. split; [exact Hr|].
    constructor; [reflexivity|]. constructor; [exact Hs2|constructor].
  - intros net' v Hv.
    exact (accepted_submission_shows_input net' (typed v (finalized d2))
             (finalized_accepts d2 v Hv)).
Qed.

(** ** Transport failure *)

Lemma failed_recovered net d :
  submission net d (failed (accepted d)) -> recovered net d.
Proof.
  intros (t & Hrun & Hr). exists t, (finalized (failed (accepted d))).
  split; [exact Hrun|]. rewrite Hr.
  replace (messageId d + 2) with (messageId d + 1 + 1) by lia.
  replace (messageId d + 3) with (messageId d + 1 + 1 + 1) by lia.
  assert (E : messages (finalized (failed (accepted d)))
              = filter not_loading (messages d)
                ++ [UserMsg (messageId d + 1) (trim (inputValue d));
                    TextMsg (messageId d + 1 + 1 + 1) (VStr NETWORK_ERROR_TEXT)]).
  { simpl. rewrite filter_not_loading_accepted, <- app_assoc. reflexivity. }
  split; [reflexivity|]. split; [exact E|].
  split; [|split; reflexivity].
  rewrite E, has_loading_app, has_loading_filter. reflexivity.
Qed.

(** C8. When the chat request fails, or is answered with a status other
    than 200 (any status outside 2xx in particular, whatever the body),
    the submission removes the loading message, appends one assistant text
    message with the fixed cannot-reach-the-server text, and clears
    [sending]. *)
Theorem transport_failure_recovers (net : network) (d : page_data) :
  is_accepted d ->
  transport_failure (chat_response net (trim (inputValue d))) ->
  recovered net d.
Proof.
  intros Ha Hfail. apply failed_recovered.
  now apply submission_of_transport_failure.
Qed.

(** C10. A response that reports success in keyword mode but has no
    [diagnosis] (absent or [null]) is handled by the [catch] block: the
    submission returns normally, the loading message is replaced by the
    fixed cannot-reach-the-server text, [sending] is cleared, and the next
    submission is accepted. *)
Theorem missing_diagnosis_recovers (net : network) (d : page_data)
        (props : list (jsstring * value)) :
  is_accepted d ->
  chat_response net (trim (inputValue d)) = WxSuccess 200 (VObj props) ->
  ToBoolean (field props (js "success")) = true ->
  strict_eq_str (field props (js "mode")) (js "llm") = false ->
  field props (js "diagnosis") = VUndefined
  \/ field props (js "diagnosis") = VNull ->
  recovered net d
  /\ forall (net' : network) (v : jsstring) (d' : page_data) t,
      sendMessage net d = (Ok tt, d', t) ->
      trim v <> [] ->
      exists t' d'',
        sendMessage net' (typed v d') = (Ok tt, d'', t')
        /\ In (UserMsg (messageId d' + 1) (trim v)) (messages d'').
Proof.
  intros Ha Hresp Hs Hmode Hdiag.
  assert (Hsub : submission net d (failed (accepted d))).
  { apply (submission_of_response_throw net d (VObj props) TypeError [] Ha Hresp);
      [|reflexivity].
    exact (response_no_diagnosis net props (accepted d) Hs Hmode Hdiag). }
  split; [exact (failed_recovered net d Hsub)|].
  intros net' v d' t Hrun Hv.
  destruct Hsub as (t0 & Hrun0 & _). rewrite Hrun0 in Hrun.
  injection Hrun as <- _.
  destruct (accepted_submission_shows_input net'
              (typed v (finalized (failed (accepted d))))
              (finalized_accepts _ v Hv)) as (t' & d'' & H1 & _ & H3).
  exists t', d''. split; [exact H1|exact H3].
Qed.

(** ** Soft failure *)




(** ** Diagnosis messages *)

Lemma or_else_list v l : list_or_absent v l -> or_else v (VArr []) = VArr l.
Proof. intros [->|[[->| ->] ->]]; reflexivity. Qed.

Lemma submission_diagnosis net d props l id title llm disclaimer :
  is_accepted d ->
  chat_response net (trim (inputValue d)) = WxSuccess 200 (VObj props) ->
  (forall points t,
      loadAcupointImages net (VArr l) (accepted d)
      = (Ok points, accepted d, t) ->
      response_message net (VObj props) (accepted d)
      = (Ok (DiagnosisMsg id title llm points disclaimer), accepted d, t)) ->
  exists points t' t d',
    loadAcupointImages net (VArr l) (accepted d) = (Ok points, accepted d, t')
    /\ sendMessage net d = (Ok tt, d', t)
    /\ messages d'
       = filter not_loading (messages d)
         ++ [UserMsg (messageId d + 1) (trim (inputValue d));
             DiagnosisMsg id title llm points disclaimer]
    /\ sending d' = false.
Proof.
  intros Ha Hresp Hbuild.
  destruct (loadAcupointImages_array net l (accepted d)) as (t' & Hload & Ht').
  pose proof (Hbuild _ _ Hload) as Hmsg.
  destruct (submission_of_response net d _ _ t' Ha Hresp Hmsg Ht')
    as (t & Hrun & _).
  exists (resolved net 0 l), t', t. eexists.
  split; [exact Hload|]. split; [exact Hrun|]. split; [|reflexivity].
  simpl. rewrite filter_not_loading_accepted, <- app_assoc. reflexivity.
Qed.

(** C6. For a response reporting success the terminal message is a
    diagnosis message.  With [mode] equal to ['llm']: [llmResponse] is the
    response's [llm_response], [title] and [disclaimer] are empty, and the
    points are those [loadAcupointImages] returns for
    [recommended_acupoints] (for the empty list when it is absent).  With
    any other [mode], absent included, and a [diagnosis] object in the
    response: the title is built around [diagnosis.symptom], the points are
    resolved from [diagnosis.acupoints], and the disclaimer is
    [diagnosis.disclaimer], or empty when that is absent. *)
Theorem diagnosis_by_mode (net : network) (d : page_data)
        (props : list (jsstring * value)) :
  is_accepted d ->
  chat_response net (trim (inputValue d)) = WxSuccess 200 (VObj props) ->
  ToBoolean (field props (js "success")) = true ->
  (strict_eq_str (field props (js "mode")) (js "llm") = true ->
   forall l,
     list_or_absent (field props (js "recommended_acupoints")) l ->
     exists points t' t d',
       loadAcupointImages net (VArr l) (accepted d)
       = (Ok points, accepted d, t')
       /\ sendMessage net d = (Ok tt, d', t)
       /\ messages d'
          = filter not_loading (messages d)
            ++ [UserMsg (messageId d + 1) (trim (inputValue d));
                DiagnosisMsg (messageId d + 3) []
                             (field props (js "llm_response")) points
                             (VStr [])]
       /\ sending d' = false)
  /\ (strict_eq_str (field props (js "mode")) (js "llm") = false ->
      forall diag label l,
        field props (js "diagnosis") = VObj diag ->
        field diag (js "symptom") = VStr label ->
        list_or_absent (field diag (js "acupoints")) l ->
        exists points disclaimer t' t d',
          loadAcupointImages net (VArr l) (accepted d)
          = (Ok points, accepted d, t')
          /\ sendMessage net d = (Ok tt, d', t)
          /\ messages d'
             = filter not_loading (messages d)
               ++ [UserMsg (messageId d + 1) (trim (inputValue d));
                   DiagnosisMsg (messageId d + 3)
                                (js "针对「" ++ label ++ js "」推荐以下穴位：")
                                (VStr []) points disclaimer]
          /\ (forall s, field diag (js "disclaimer") = VStr s ->
                        disclaimer = VStr s)
          /\ (field diag (js "disclaimer") = VUndefined ->
              disclaimer = VStr [])
          /\ sending d' = false).
Proof.
  intros Ha Hresp Hs. split.
  - intros Hmode l Hl.
    replace (messageId d + 3) with (messageId (accepted d) + 1)
      by (simpl; lia).
    apply (submission_diagnosis net d props l); [exact Ha|exact Hresp|].
    intros points t Hload.
    apply response_llm; [exact Hs|exact Hmode|].
    now rewrite (or_else_list _ l Hl).
  - intros Hmode diag label l Hdiag Hsym Hl.
    replace (messageId d + 3) with (messageId (accepted d) + 1)
      by (simpl; lia).
    destruct (submission_diagnosis net d props l
                (messageId (accepted d) + 1) (title_for label) (VStr [])
                (or_else (field diag (js "disclaimer")) (VStr [])) Ha Hresp)
      as (points & t' & t & d' & H1 & H2 & H3 & H4).
    { intros points t Hload.
      apply (response_keyword net props (accepted d) diag (VStr label));
        auto.
      now rewrite (or_else_list _ l Hl). }
    exists points, (or_else (field diag (js "disclaimer")) (VStr [])), t', t, d'.
    split; [exact H1|]. split; [exact H2|]. split; [exact H3|].
    split; [intros s ->; now destruct s|].
    split; [now intros ->|exact H4].
Qed.

(** ** Ids along a session *)

Lemma fresh_ids_app logs1 : forall seen logs2,
  fresh_ids seen logs1 ->
  fresh_ids (seen ++ List.concat logs1) logs2 ->
  fresh_ids seen (logs1 ++ logs2).
Proof.
  induction logs1 as [|log rest IH]; intros seen logs2 H1 H2; simpl in *.
  - now rewrite app_nil_r in H2.
  - destruct H1 as [Hlog Hrest]. split; [exact Hlog|].
    apply IH; [exact Hrest|]. now rewrite <- app_assoc.
Qed.

Lemma increasing_app l1 l2 b :
  increasing_ids l1 -> increasing_ids l2 ->
  (forall m, In m l1 -> msg_id m <= b) ->
  (forall m, In m l2 -> b < msg_id m) ->
  increasing_ids (l1 ++ l2).
Proof.
  unfold increasing_ids. intros H1 H2 Hb1 Hb2.
  induction l1 as [|x l1 IH]; simpl in *; [exact H2|].
  apply StronglySorted_inv in H1 as [Hs Hx].
  constructor.
  - apply IH; [exact Hs|]. intros m Hm. apply Hb1. now right.
  - rewrite map_app. apply Forall_app. split; [exact Hx|].
    apply Forall_forall. intros y Hy. apply in_map_iff in Hy as (m & <- & Hm).
    specialize (Hb1 x (or_introl eq_refl)). specialize (Hb2 m Hm). lia.
Qed.

Lemma increasing_filter (p : message -> bool) l :
  increasing_ids l -> increasing_ids (filter p l).
Proof.
  unfold increasing_ids. induction l as [|x l IH]; simpl; intros H; [exact H|].
  apply StronglySorted_inv in H as [Hs Hx].
  destruct (p x); simpl; [|auto].
  constructor; [auto|].
  rewrite Forall_forall in *. intros y Hy. apply Hx.
  apply in_map_iff in Hy as (m & <- & Hm). apply in_map.
  apply filter_In in Hm. tauto.
Qed.

Lemma increasing_injective l m m' :
  increasing_ids l -> In m l -> In m' l -> msg_id m = msg_id m' -> m = m'.
Proof.
  unfold increasing_ids. induction l as [|x l IH]; simpl; [easy|].
  intros H Hm Hm' E. apply StronglySorted_inv in H as [Hs Hx].
  rewrite Forall_forall in Hx.
  destruct Hm as [<-|Hm], Hm' as [<-|Hm']; auto.
  - specialize (Hx _ (in_map msg_id _ _ Hm')). lia.
  - specialize (Hx _ (in_map msg_id _ _ Hm)). lia.
Qed.

(** Rendering [d'] from [d] when every message of [d'] is one of [d] or
    has an id between the two counters. *)
Lemma render_step seen d d' :
  log_inv seen d ->
  messageId d <= messageId d' ->
  (forall m, In m (messages d') ->
             In m (messages d) \/ messageId d < msg_id m <= messageId d') ->
  increasing_ids (messages d') ->
  (forall m, In m (messages d') ->
             In m seen \/ forall m', In m' seen -> msg_id m' < msg_id m)
  /\ log_inv (seen ++ messages d') d'.
Proof.
  intros (Hb & Hcur & Hinc) Hle Hnew Hinc'. split.
  - intros m Hm. destruct (Hnew m Hm) as [H|H]; [left; auto|right].
    intros m' Hm'. specialize (Hb m' Hm'). lia.
  - split; [|split; [|exact Hinc']].
    + intros m Hm. apply in_app_or in Hm as [Hm|Hm].
      * specialize (Hb m Hm). lia.
      * destruct (Hnew m Hm) as [H|H]; [|lia].
        specialize (Hb m (Hcur m H)). lia.
    + intros m Hm. apply in_or_app. now right.
Qed.

Lemma keeps_bind (m1 m2 : M unit) :
  keeps_ids_fresh m1 -> keeps_ids_fresh m2 ->
  keeps_ids_fresh (bind m1 (fun _ => m2)).
Proof.
  intros H1 H2 seen d Hinv. unfold bind.
  specialize (H1 seen d Hinv).
  destruct (m1 d) as [[[u|e] d1] t1]; [|exact H1].
  destruct H1 as (Hi1 & Hf1 & Hinv1).
  specialize (H2 _ d1 Hinv1).
  destruct (m2 d1) as [[r d2] t2]. destruct H2 as (Hi2 & Hf2 & Hinv2).
  cbv zeta. rewrite renders_app, map_app, concat_app.
  split; [apply Forall_app; auto|].
  split; [apply fresh_ids_app; auto|].
  now rewrite app_assoc.
Qed.

Lemma keeps_render_same (patch : page_data -> page_data) :
  (forall d, messages (patch d) = messages d) ->
  (forall d, messageId (patch d) = messageId d) ->
  keeps_ids_fresh (setData patch).
Proof.
  intros Hm Hi seen d Hinv. unfold setData. cbv zeta. simpl.
  destruct (render_step seen d (patch d) Hinv) as (Hfresh & Hinv').
  - rewrite Hi. lia.
  - intros m H. left. now rewrite <- Hm.
  - rewrite Hm. apply Hinv.
  - split; [constructor; [rewrite Hm; apply Hinv|constructor]|].
    split; [split; [exact Hfresh|exact I]|].
    now rewrite app_nil_r.
Qed.

Lemma submission_shape net d :
  is_accepted d ->
  exists d2 terminal,
    submission net d d2
    /\ messages d2 = filter not_loading (messages (accepted d)) ++ [terminal]
    /\ messageId d2 = messageId (accepted d) + 1
    /\ sending d2 = true
    /\ terminal_for (accepted d) terminal.
Proof.
  intros Ha.
  destruct (submission_cases net d Ha) as [(terminal & Ht & Hs)|Hs].
  - exists (settled (accepted d) terminal), terminal. auto.
  - exists (failed (accepted d)),
           (TextMsg (messageId (accepted d) + 1) (VStr NETWORK_ERROR_TEXT)).
    split; [exact Hs|]. repeat split; auto.
Qed.

Lemma concat_three {A} (s a b c : list A) :
  s ++ List.concat [a; b; c] = ((s ++ a) ++ b) ++ c.
Proof. simpl. now rewrite app_nil_r, !app_assoc. Qed.

Lemma keeps_sendMessage net : keeps_ids_fresh (sendMessage net).
Proof.
  intros seen d Hinv.
  destruct (trim (inputValue d)) as [|c s] eqn:Etrim.
  { rewrite sendMessage_rejected by now left.
    simpl. now rewrite app_nil_r. }
  destruct (sending d) eqn:Es.
  { rewrite sendMessage_rejected by now right.
    simpl. now rewrite app_nil_r. }
  assert (Ha : is_accepted d) by (split; [congruence|exact Es]).
  destruct (submission_shape net d Ha)
    as (d2 & terminal & (t & Hrun & Hr) & Hlog & Hid & _ & Hterm).
  rewrite Hrun, Hr. cbv zeta.
  change (map messages [accepted d; d2; finalized d2])
    with [messages (accepted d); messages d2; messages (finalized d2)].
  pose proof Hinv as (Hb & Hcur & Hinc).
  destruct Hterm as (Htid & _ & _).
  (* first render: the user's message and the loading message *)
  assert (Hinc1 : increasing_ids (messages (accepted d))).
  { simpl. apply (increasing_app _ _ (messageId d)); [exact Hinc| | |].
    - repeat constructor. simpl. lia.
    - intros m Hm. auto.
    - intros m [<-|[<-|[]]]; simpl; lia. }
  destruct (render_step seen d (accepted d) Hinv) as (Hf1 & Hinv1);
    [simpl; lia| |exact Hinc1|].
  { simpl. intros m Hm. apply in_app_or in Hm as [Hm|[<-|[<-|[]]]];
      [now left|right; simpl; lia|right; simpl; lia]. }
  (* second render: the loading message replaced by the terminal message *)
  assert (Hinc2 : increasing_ids (messages d2)).
  { rewrite Hlog.
    apply (increasing_app _ _ (messageId (accepted d)));
      [now apply increasing_filter|repeat constructor| |].
    - intros m Hm. apply filter_In in Hm as [Hm _].
      apply Hinv1. apply in_or_app. now right.
    - intros m [<-|[]]. lia. }
  destruct (render_step _ (accepted d) d2 Hinv1) as (Hf2 & Hinv2);
    [lia| |exact Hinc2|].
  { rewrite Hlog. intros m Hm. apply in_app_or in Hm as [Hm|[<-|[]]].
    - left. apply filter_In in Hm. tauto.
    - right. lia. }
  (* third render: the same log *)
  destruct (render_step _ d2 (finalized d2) Hinv2) as (Hf3 & Hinv3);
    [simpl; lia|now left|exact Hinc2|].
  split; [repeat constructor; assumption|].
  split; [simpl; repeat split; assumption|].
  rewrite concat_three. exact Hinv3.
Qed.

Lemma keeps_handle e : keeps_ids_fresh (handle e).
Proof.
  destruct e as [v|net query|net]; simpl.
  - now apply keeps_render_same.
  - apply keeps_bind; [now apply keeps_render_same|apply keeps_sendMessage].
  - apply keeps_sendMessage.
Qed.

Lemma run_session_fresh es : forall seen d,
  log_inv seen d ->
  match run_session es d with
  | (d', t) =>
    let logs := map messages (renders t) in
    Forall increasing_ids logs
    /\ fresh_ids seen logs
    /\ log_inv (seen ++ List.concat logs) d'
  end.
Proof.
  induction es as [|e es IH]; intros seen d Hinv; simpl.
  - rewrite app_nil_r. auto.
  - pose proof (keeps_handle e seen d Hinv) as H1.
    destruct (handle e d) as [[r d1] t1]. destruct H1 as (Hi1 & Hf1 & Hinv1).
    specialize (IH _ d1 Hinv1).
    destruct (run_session es d1) as [d2 t2]. destruct IH as (Hi2 & Hf2 & Hinv2).
    cbv zeta. rewrite renders_app, map_app, concat_app.
    split; [apply Forall_app; auto|].
    split; [apply fresh_ids_app; auto|].
    now rewrite app_assoc.
Qed.

Lemma fresh_ids_unique logs : forall seen,
  (forall m m', In m seen -> In m' seen -> msg_id m = msg_id m' -> m = m') ->
  Forall increasing_ids logs ->
  fresh_ids seen logs ->
  forall m m',
    In m (seen ++ List.concat logs) -> In m' (seen ++ List.concat logs) ->
    msg_id m = msg_id m' -> m = m'.
Proof.
  induction logs as [|log rest IH]; intros seen Hseen Hinc Hfresh; simpl.
  - rewrite app_nil_r. exact Hseen.
  - rewrite app_assoc. inversion Hinc as [|? ? Hlog Hrest]; subst.
    destruct Hfresh as [Hnew Hfresh].
    apply IH; [|exact Hrest|exact Hfresh].
    intros m m' Hm Hm' E.
    apply in_app_or in Hm as [Hm|Hm]; apply in_app_or in Hm' as [Hm'|Hm'].
    + auto.
    + destruct (Hnew m' Hm') as [H|H]; [auto|]. specialize (H m Hm). lia.
    + destruct (Hnew m Hm) as [H|H]; [auto|]. specialize (H m' Hm'). lia.
    + exact (increasing_injective log m m' Hlog Hm Hm' E).
Qed.

(** C9. In every session started from the initial data, whatever the
    user does and the server answers: each rendered log has strictly
    increasing ids; a message that shows up in a render either was shown
    before or has an id above the ids of all messages shown before,
    removed loading messages included; and no two different messages ever
    shown share an id. *)
Theorem ids_unique_increasing (es : list ui_event) :
  let logs := map messages (renders (snd (run_session es initial_data))) in
  Forall increasing_ids logs
  /\ fresh_ids [] logs
  /\ forall m m',
      In m (List.concat logs) -> In m' (List.concat logs) ->
      msg_id m = msg_id m' -> m = m'.
Proof.
  assert (Hinit : log_inv [] initial_data).
  { split; [intros m []|]. split; [intros m []|constructor]. }
  pose proof (run_session_fresh es [] initial_data Hinit) as H.
  destruct (run_session es initial_data) as [d t]. simpl snd.
  destruct H as (Hinc & Hfresh & _). cbv zeta.
  split; [exact Hinc|]. split; [exact Hfresh|].
  apply (fresh_ids_unique _ [] (fun m m' (H : In m []) => match H with end)
                          Hinc Hfresh).
Qed.

(** Every state a session reaches satisfies the bound on ids assumed by
    the loading bracket. *)
Lemma session_ids_bounded (es : list ui_event) :
  let d := fst (run_session es initial_data) in
  Forall (fun m => msg_id m <= messageId d) (messages d).
Proof.
  assert (Hinit : log_inv [] initial_data).
  { split; [intros m []|]. split; [intros m []|constructor]. }
  pose proof (run_session_fresh es [] initial_data Hinit) as H.
  destruct (run_session es initial_data) as [d t]. simpl.
  destruct H as (_ & _ & Hb & Hcur & _).
  apply Forall_forall. intros m Hm. apply Hb, Hcur, Hm.
Qed.

(** * More facts *)

(** ** [trim] *)

Lemma trimStart_nil s : trimStart s = [] <-> blank_string s = true.
Proof.
  unfold blank_string. induction s as [|c s IH]; simpl; [tauto|].
  destruct (is_white_space c); simpl; [exact IH|].
  split; discriminate.
Qed.

Lemma trimStart_head s c r : trimStart s = c :: r -> is_white_space c = false.
Proof.
  induction s as [|x s IH]; simpl; [discriminate|].
  destruct (is_white_space x) eqn:E; [exact IH|].
  now intros [= <- _].
Qed.

Lemma trimStart_suffix s :
  exists pre, s = pre ++ trimStart s /\ blank_string pre = true.
Proof.
  induction s as [|c s (pre & IH & Hpre)]; simpl.
  - now exists [].
  - destruct (is_white_space c) eqn:E.
    + exists (c :: pre). simpl. split; [now f_equal|].
      unfold blank_string in *. simpl. now rewrite E.
    + now exists [].
Qed.

Lemma trimStart_fixed s :
  (forall c r, s = c :: r -> is_white_space c = false) -> trimStart s = s.
Proof.
  destruct s as [|c r]; [reflexivity|]. intros H. simpl.
  now rewrite (H c r eq_refl).
Qed.

Lemma blank_string_app a b :
  blank_string (a ++ b) = blank_string a && blank_string b.
Proof. apply forallb_app. Qed.

Lemma blank_string_rev s : blank_string (rev s) = blank_string s.
Proof.
  induction s as [|c s IH]; [reflexivity|]. simpl.
  rewrite blank_string_app, IH. unfold blank_string. simpl.
  rewrite andb_true_r. apply andb_comm.
Qed.

Lemma trimEnd_prefix s :
  exists suf, s = trimEnd s ++ suf /\ blank_string suf = true.
Proof.
  unfold trimEnd.
  destruct (trimStart_suffix (rev s)) as (pre & E & Hpre).
  exists (rev pre). split; [|now rewrite blank_string_rev].
  rewrite <- rev_app_distr, <- E. symmetry. apply rev_involutive.
Qed.

Lemma trim_nil s : trim s = [] <-> blank_string s = true.
Proof.
  unfold trim, trimEnd. split.
  - intros H.
    assert (H' : trimStart (rev (trimStart s)) = []).
    { apply (f_equal (@rev N)) in H. now rewrite rev_involutive in H. }
    apply trimStart_nil in H'. rewrite blank_string_rev in H'.
    destruct (trimStart s) as [|c r] eqn:E; [now apply trimStart_nil|].
    pose proof (trimStart_head s c r E) as Hc.
    unfold blank_string in H'. simpl in H'. now rewrite Hc in H'.
  - intros H. apply trimStart_nil in H. now rewrite H.
Qed.

Lemma trim_head s c r : trim s = c :: r -> is_white_space c = false.
Proof.
  unfold trim. intros H.
  destruct (trimEnd_prefix (trimStart s)) as (suf & E & _).
  rewrite H in E. simpl in E. exact (trimStart_head s c _ E).
Qed.

Lemma trim_last s c r : rev (trim s) = c :: r -> is_white_space c = false.
Proof.
  unfold trim, trimEnd. rewrite rev_involutive. apply trimStart_head.
Qed.

Lemma trim_parts s :
  exists pre suf,
    s = pre ++ trim s ++ suf
    /\ blank_string pre = true /\ blank_string suf = true.
Proof.
  destruct (trimStart_suffix s) as (pre & E1 & Hpre).
  destruct (trimEnd_prefix (trimStart s)) as (suf & E2 & Hsuf).
  exists pre, suf. split; [|auto]. unfold trim. now rewrite <- E2.
Qed.

Lemma trim_idempotent s : trim (trim s) = trim s.
Proof.
  unfold trim at 1.
  rewrite (trimStart_fixed (trim s)) by (intros c r; apply trim_head).
  unfold trimEnd. rewrite trimStart_fixed; [apply rev_involutive|].
  intros c r. apply trim_last.
Qed.

(** ** The guard, exactly *)

Lemma accepted_not_noop net d :
  is_accepted d -> sendMessage net d <> (Ok tt, d, []).
Proof.
  intros Ha H.
  destruct (submission_shape net d Ha) as (d2 & m & (t & Hrun & Hr) & _).
  rewrite Hrun in H. injection H as _ Ht. rewrite Ht in Hr. discriminate Hr.
Qed.

(** X1. [sendMessage] does nothing at all exactly when the input box holds
    nothing but white space (or nothing) or a submission is pending; in
    every other case it renders and issues a request. *)
Theorem noop_iff_blank_or_pending (net : network) (d : page_data) :
  sendMessage net d = (Ok tt, d, [])
  <-> blank_string (inputValue d) = true \/ sending d = true.
Proof.
  split.
  - intros H.
    destruct (blank_string (inputValue d)) eqn:Eb; [now left|].
    destruct (sending d) eqn:Es; [now right|].
    exfalso. apply (accepted_not_noop net d); [|exact H].
    split; [|exact Es]. intros Ht. apply trim_nil in Ht. congruence.
  - intros [H|H]; apply sendMessage_rejected; [left|now right].
    now apply trim_nil.
Qed.

(** ** What one handler does to the page *)

Lemma sendMessage_cases net d :
  (~ is_accepted d /\ sendMessage net d = (Ok tt, d, []))
  \/ (is_accepted d
      /\ exists d2 t,
          sendMessage net d = (Ok tt, finalized d2, t)
          /\ renders t = [accepted d; d2; finalized d2]
          /\ ((exists m, built (accepted d) m /\ d2 = settled (accepted d) m)
              \/ d2 = failed (accepted d))).
Proof.
  destruct (trim (inputValue d)) as [|c s] eqn:Etrim.
  { left. split; [intros [H _]; congruence|].
    apply sendMessage_rejected. now left. }
  destruct (sending d) eqn:Es.
  { left. split; [intros [_ H]; congruence|].
    apply sendMessage_rejected. now right. }
  right. assert (Ha : is_accepted d) by (split; congruence).
  split; [exact Ha|].
  assert (Hfail : transport_failure (chat_response net (trim (inputValue d))) ->
                  exists d2 t,
                    sendMessage net d = (Ok tt, finalized d2, t)
                    /\ renders t = [accepted d; d2; finalized d2]
                    /\ ((exists m, built (accepted d) m
                                   /\ d2 = settled (accepted d) m)
                        \/ d2 = failed (accepted d))).
  { intros Hf.
    destruct (submission_of_transport_failure net d Ha Hf) as (t & Hrun & Hr).
    exists (failed (accepted d)), t. auto. }
  destruct (chat_response net (trim (inputValue d))) as [sc res|msg] eqn:Hresp;
    [|apply Hfail; exact I].
  destruct (Z.eq_dec sc 200) as [->|Hsc]; [|apply Hfail; exact Hsc].
  destruct (response_message_any net res (accepted d))
    as ([m|e] & t0 & Hmsg & Ht0 & _).
  - destruct (submission_of_response net d res m t0 Ha Hresp Hmsg Ht0)
      as (t & Hrun & Hr).
    exists (settled (accepted d) m), t. split; [exact Hrun|].
    split; [exact Hr|]. left. exists m. split; [|reflexivity].
    now exists net, res, t0.
  - destruct (submission_of_response_throw net d res e t0 Ha Hresp Hmsg Ht0)
      as (t & Hrun & Hr).
    exists (failed (accepted d)), t. auto.
Qed.

Lemma onQuickTap_run net query d :
  onQuickTap net query d
  = match sendMessage net (typed query d) with
    | (r, d2, t2) => (r, d2, Render (typed query d) :: t2)
    end.
Proof. reflexivity. Qed.

Lemma built_terminal d m : built d m -> terminal_for d m.
Proof.
  intros (net & res & t & H).
  destruct (response_message_any net res d) as (r & t' & H' & _ & Hterm).
  rewrite H in H'. injection H' as <- _. now apply Hterm.
Qed.

(** Proving something of all sessions: an invariant [I] of the data
    between two handlers and a property [Phi] of the data rendered from one
    point of the session to another. *)
Lemma session_rule (I : page_data -> Prop)
      (Phi : page_data -> list page_data -> page_data -> Prop) :
  (forall d, Phi d [] d) ->
  (forall d rs1 d1 rs2 d2,
      Phi d rs1 d1 -> Phi d1 rs2 d2 -> Phi d (rs1 ++ rs2) d2) ->
  (forall d v, I d -> I (typed v d) /\ Phi d [typed v d] (typed v d)) ->
  (forall d m,
      I d -> is_accepted d -> built (accepted d) m ->
      I (finalized (settled (accepted d) m))
      /\ Phi d [accepted d; settled (accepted d) m;
                finalized (settled (accepted d) m)]
             (finalized (settled (accepted d) m))) ->
  (forall d,
      I d -> is_accepted d ->
      I (finalized (failed (accepted d)))
      /\ Phi d [accepted d; failed (accepted d);
                finalized (failed (accepted d))]
             (finalized (failed (accepted d)))) ->
  forall es d,
    I d ->
    match run_session es d with
    | (d', t) => I d' /\ Phi d (renders t) d'
    end.
Proof.
  intros Hrefl Htrans Htyped Hsettled Hfailed.
  assert (Hsend : forall net d, I d ->
            match sendMessage net d with
            | (_, d', t) => I d' /\ Phi d (renders t) d'
            end).
  { intros net d Hd.
    destruct (sendMessage_cases net d)
      as [(_ & ->)|(Ha & d2 & t & -> & -> & [(m & Hm & ->)| ->])].
    - simpl. auto.
    - now apply Hsettled.
    - now apply Hfailed. }
  assert (Hhandle : forall e d, I d ->
            match handle e d with
            | (_, d', t) => I d' /\ Phi d (renders t) d'
            end).
  { intros [v|net query|net] d Hd; simpl.
    - now apply Htyped.
    - rewrite onQuickTap_run.
      destruct (Htyped d query Hd) as (Hd1 & H1).
      specialize (Hsend net (typed query d) Hd1).
      destruct (sendMessage net (typed query d)) as [[r d2] t2].
      destruct Hsend as (Hd2 & H2). split; [exact Hd2|].
      exact (Htrans _ [typed query d] _ _ _ H1 H2).
    - now apply Hsend. }
  induction es as [|e es IH]; intros d Hd; simpl; [auto|].
  specialize (Hhandle e d Hd).
  destruct (handle e d) as [[r d1] t1]. destruct Hhandle as (Hd1 & H1).
  specialize (IH d1 Hd1).
  destruct (run_session es d1) as [d2 t2]. destruct IH as (Hd2 & H2).
  split; [exact Hd2|]. rewrite renders_app.
  exact (Htrans _ _ _ _ _ H1 H2).
Qed.

(** ** The shape of the log *)

Lemma exchanges_no_loading n log :
  exchanges n log -> filter not_loading log = log.
Proof.
  induction 1 as [|n log c a _ IH _ _ Ht _]; [reflexivity|].
  rewrite filter_app, IH. simpl.
  assert (E : not_loading a = true)
    by (unfold not_loading; destruct Ht as [-> | ->]; reflexivity).
  now rewrite E.
Qed.

Lemma exchanges_count n log :
  exchanges n log ->
  exists k : nat, n = 3 * Z.of_nat k /\ List.length log = (2 * k)%nat.
Proof.
  induction 1 as [|n log c a _ (k & Hn & Hl) _ _ _ _].
  - now exists 0%nat.
  - exists (S k). split; [lia|]. rewrite length_app. simpl. lia.
Qed.

Lemma exchanges_step d m :
  exchanges (messageId d) (messages d) ->
  is_accepted d ->
  terminal_for (accepted d) m ->
  exchanges (messageId d + 1 + 1 + 1)
            (filter not_loading (messages (accepted d)) ++ [m]).
Proof.
  intros Hex [Hne _] (Hid & Hu & Ht). simpl in *.
  rewrite filter_not_loading_accepted, (exchanges_no_loading _ _ Hex).
  rewrite <- app_assoc. simpl.
  replace (messageId d + 1 + 1 + 1) with (messageId d + 3) in * by lia.
  now constructor.
Qed.

(** X2. After any session the page is idle and its log is a sequence of
    exchanges: a user's message with a non-empty content and id [3i+1],
    followed by an assistant's text or diagnosis message with id [3i+3].
    So a log of [k] exchanges has [2k] messages, and [messageId] is [3k],
    the id of the last message. *)
Theorem log_of_exchanges (es : list ui_event) :
  let d := fst (run_session es initial_data) in
  sending d = false
  /\ exchanges (messageId d) (messages d)
  /\ exists k : nat,
      messageId d = 3 * Z.of_nat k
      /\ List.length (messages d) = (2 * k)%nat.
Proof.
  pose proof (session_rule
                (fun d => sending d = false
                          /\ exchanges (messageId d) (messages d))
                (fun _ _ _ => True)) as H.
  specialize (H (fun _ => I) (fun _ _ _ _ _ _ _ => I)).
  assert (Hstep : forall d m,
             sending d = false /\ exchanges (messageId d) (messages d) ->
             is_accepted d -> terminal_for (accepted d) m ->
             exchanges (messageId d + 1 + 1 + 1)
                       (filter not_loading (messages (accepted d)) ++ [m])).
  { intros d m [_ Hex] Ha Hm. now apply exchanges_step. }
  specialize (H (fun d v Hd => conj Hd I)).
  specialize (H (fun d m Hd Ha Hm =>
                   conj (conj eq_refl
                              (Hstep d m Hd Ha (built_terminal _ _ Hm))) I)).
  specialize (H (fun d Hd Ha =>
                   conj (conj eq_refl
                              (Hstep d _ Hd Ha (failed_terminal _))) I)).
  specialize (H es initial_data (conj eq_refl exchanges_nil)).
  destruct (run_session es initial_data) as [d t]. simpl.
  destruct H as ((Hs & Hex) & _).
  split; [exact Hs|]. split; [exact Hex|]. exact (exchanges_count _ _ Hex).
Qed.

(** ** Loading messages *)

Lemma has_loading_false_filter log :
  has_loading log = false -> filter not_loading log = log.
Proof.
  unfold has_loading. induction log as [|m log IH]; simpl; [reflexivity|].
  destruct (not_loading m); simpl; [|discriminate].
  intros H. now rewrite IH.
Qed.

Lemma settled_no_loading d m :
  terminal_for d m -> has_loading (filter not_loading (messages d) ++ [m]) = false.
Proof.
  intros Hm. rewrite has_loading_app, has_loading_filter. simpl.
  now rewrite (terminal_not_loading _ _ Hm).
Qed.

(** X3. Along any session a rendered log has a loading message only while
    a submission is pending; it then has exactly one, in the last place.
    When the session is over the page is idle and no loading message is
    left. *)
Theorem loading_only_while_pending (es : list ui_event) :
  let d := fst (run_session es initial_data) in
  let t := snd (run_session es initial_data) in
  Forall (fun r => has_loading (messages r) = true ->
                   sending r = true /\ loading_last (messages r))
         (renders t)
  /\ sending d = false
  /\ has_loading (messages d) = false.
Proof.
  pose (R := fun r : page_data =>
               has_loading (messages r) = true ->
               sending r = true /\ loading_last (messages r)).
  pose proof (session_rule
                (fun d => sending d = false /\ has_loading (messages d) = false)
                (fun _ rs _ => Forall R rs)) as H.
  specialize (H (fun _ => Forall_nil _)).
  specialize (H (fun _ _ _ _ _ H1 H2 => proj2 (Forall_app _ _ _) (conj H1 H2))).
  assert (Hquiet : forall r, has_loading (messages r) = false -> R r).
  { intros r Hr Hl. congruence. }
  assert (Hpending : forall d,
             has_loading (messages d) = false -> R (accepted d)).
  { intros d Hd _. split; [reflexivity|].
    exists (messages d ++ [UserMsg (messageId d + 1) (trim (inputValue d))]),
           (messageId d + 1 + 1).
    split; [simpl; now rewrite <- app_assoc|].
    rewrite has_loading_app, Hd. reflexivity. }
  assert (Hdone : forall d m,
             terminal_for (accepted d) m ->
             forall d2,
               messages d2 = filter not_loading (messages (accepted d)) ++ [m] ->
               has_loading (messages d2) = false).
  { intros d m Hm d2 ->. now apply settled_no_loading. }
  specialize (H (fun d v Hd =>
                   conj Hd (Forall_cons _ (Hquiet (typed v d) (proj2 Hd))
                                        (Forall_nil _)))).
  assert (Hout : forall d d2 m,
             (sending d = false /\ has_loading (messages d) = false) ->
             terminal_for (accepted d) m ->
             messages d2 = filter not_loading (messages (accepted d)) ++ [m] ->
             (sending (finalized d2) = false
              /\ has_loading (messages (finalized d2)) = false)
             /\ Forall R [accepted d; d2; finalized d2]).
  { intros d d2 m [_ Hd] Hm Hlog.
    pose proof (Hdone d m Hm d2 Hlog) as Hnl.
    split; [split; [reflexivity|exact Hnl]|].
    repeat constructor; [now apply Hpending|now apply Hquiet..]. }
  specialize (H (fun d m Hd Ha Hm =>
                   Hout d (settled (accepted d) m) m Hd (built_terminal _ _ Hm) eq_refl)).
  specialize (H (fun d Hd Ha => Hout d (failed (accepted d)) _ Hd (failed_terminal _) eq_refl)).
  specialize (H es initial_data (conj eq_refl eq_refl)).
  destruct (run_session es initial_data) as [d t]. simpl.
  destruct H as ((Hs & Hl) & HR). auto.
Qed.

(** ** The log only grows *)

Lemma last_default {A} (l : list A) (a b : A) :
  l <> [] -> last l a = last l b.
Proof.
  induction l as [|x l IH]; [easy|]. intros _.
  destruct l as [|y l]; [reflexivity|]. apply IH. discriminate.
Qed.

Lemma last_app_nonempty {A} (l1 l2 : list A) (a : A) :
  l2 <> [] -> last (l1 ++ l2) a = last l2 a.
Proof.
  intros H. induction l1 as [|x l1 IH]; [reflexivity|].
  simpl. destruct (l1 ++ l2) eqn:E; [|exact IH].
  apply app_eq_nil in E. now destruct E.
Qed.

Lemma grows_app logs1 : forall previous logs2,
  grows previous logs1 ->
  grows (last logs1 previous) logs2 ->
  grows previous (logs1 ++ logs2).
Proof.
  induction logs1 as [|log rest IH]; intros previous logs2 H1 H2; simpl in *;
    [exact H2|].
  destruct H1 as [Hlog Hrest]. split; [exact Hlog|].
  apply IH; [exact Hrest|].
  destruct rest as [|l rest]; [exact H2|].
  now rewrite (last_default (l :: rest) log previous) by discriminate.
Qed.

(** X4. Messages are never edited, reordered or dropped: along any
    session each rendered log consists of the messages of the log rendered
    before it, the loading message apart, in the same places, followed by
    the messages added since. *)
Theorem log_only_grows (es : list ui_event) :
  grows [] (map messages (renders (snd (run_session es initial_data)))).
Proof.
  pose (Phi := fun (d : page_data) (rs : list page_data) (d' : page_data) =>
                 grows (messages d) (map messages rs)
                 /\ messages d' = last (map messages rs) (messages d)).
  pose proof (session_rule (fun d => has_loading (messages d) = false) Phi)
    as H.
  assert (Hsame : forall log, has_loading log = false ->
                              exists added, log = filter not_loading log ++ added).
  { intros log Hl. exists []. now rewrite app_nil_r, has_loading_false_filter. }
  specialize (H (fun d => conj I eq_refl)).
  assert (Htrans : forall d rs1 d1 rs2 d2,
             Phi d rs1 d1 -> Phi d1 rs2 d2 -> Phi d (rs1 ++ rs2) d2).
  { intros d rs1 d1 rs2 d2 [G1 L1] [G2 L2]. unfold Phi.
    rewrite map_app. split.
    - apply grows_app; [exact G1|now rewrite <- L1].
    - destruct (map messages rs2) as [|l ls] eqn:E.
      + rewrite app_nil_r, <- L1. exact L2.
      + rewrite last_app_nonempty by discriminate. rewrite L2.
        apply last_default. discriminate. }
  specialize (H Htrans).
  specialize (H (fun d v Hd =>
                   conj Hd (conj (conj (Hsame _ Hd) I) eq_refl))).
  assert (Hout : forall d d2 m,
             has_loading (messages d) = false ->
             terminal_for (accepted d) m ->
             messages d2 = filter not_loading (messages (accepted d)) ++ [m] ->
             has_loading (messages (finalized d2)) = false
             /\ Phi d [accepted d; d2; finalized d2] (finalized d2)).
  { intros d d2 m Hd Hm Hlog.
    assert (Hnl : has_loading (messages d2) = false)
      by (rewrite Hlog; now apply settled_no_loading).
    split; [exact Hnl|]. split; [|reflexivity].
    simpl. split.
    - exists [UserMsg (messageId d + 1) (trim (inputValue d));
              LoadingMsg (messageId d + 1 + 1)].
      now rewrite has_loading_false_filter.
    - split; [exists [m]; exact Hlog|].
      split; [now apply Hsame|exact I]. }
  specialize (H (fun d m Hd Ha Hm =>
                   Hout d (settled (accepted d) m) m Hd (built_terminal _ _ Hm) eq_refl)).
  specialize (H (fun d Hd Ha => Hout d (failed (accepted d)) _ Hd (failed_terminal _) eq_refl)).
  specialize (H es initial_data eq_refl).
  destruct (run_session es initial_data) as [d t]. simpl.
  now destruct H as (_ & Hg & _).
Qed.

(** ** What users' messages hold *)

(** X5. The content of every user's message in the log is what [trim]
    left of the input: it is not empty, and neither its first nor its last
    code unit is white space. *)
Theorem user_messages_trimmed (es : list ui_event) (id : Z) (c : jsstring) :
  In (UserMsg id c) (messages (fst (run_session es initial_data))) ->
  c <> []
  /\ trim c = c
  /\ (forall u r, c = u :: r -> is_white_space u = false)
  /\ (forall u r, rev c = u :: r -> is_white_space u = false).
Proof.
  pose (J := fun d : page_data =>
               forall id c, In (UserMsg id c) (messages d) ->
                            c <> [] /\ trim c = c).
  pose proof (session_rule J (fun _ _ _ => True)) as H.
  specialize (H (fun _ => I) (fun _ _ _ _ _ _ _ => I)).
  specialize (H (fun d v Hd => conj Hd I)).
  assert (Hout : forall d d2 m,
             J d -> is_accepted d -> terminal_for (accepted d) m ->
             messages d2 = filter not_loading (messages (accepted d)) ++ [m] ->
             J (finalized d2) /\ True).
  { intros d d2 m Hd [Hne _] (_ & Hu & _) Hlog. split; [|exact I].
    intros id' c' Hin. simpl in Hin. rewrite Hlog in Hin. simpl in Hin.
    rewrite filter_not_loading_accepted, <- app_assoc in Hin.
    apply in_app_or in Hin as [Hin|[Hin|[Hin|[]]]].
    - apply filter_In in Hin as [Hin _]. exact (Hd id' c' Hin).
    - injection Hin as _ <-. split; [exact Hne|apply trim_idempotent].
    - subst m. discriminate Hu. }
  specialize (H (fun d m Hd Ha Hm =>
                   Hout d (settled (accepted d) m) m Hd Ha (built_terminal _ _ Hm) eq_refl)).
  specialize (H (fun d Hd Ha => Hout d (failed (accepted d)) _ Hd Ha (failed_terminal _) eq_refl)).
  specialize (H es initial_data (fun _ _ (Hin : In _ []) => match Hin with end)).
  destruct (run_session es initial_data) as [d t]. simpl.
  destruct H as (Hd & _). intros Hin.
  destruct (Hd id c Hin) as [Hne Ht]. split; [exact Hne|].
  split; [exact Ht|]. rewrite <- Ht.
  split; [intros u r; apply trim_head|intros u r; apply trim_last].
Qed.

(** ** Resolved points *)

Lemma map_result_length {A B} (f : A -> result B) l out :
  map_result f l = Ok out -> List.length out = List.length l.
Proof.
  revert out. induction l as [|x l IH]; simpl; intros out.
  - now intros [= <-].
  - destruct (f x) as [y|e]; simpl; [|discriminate].
    destruct (map_result f l) as [ys|e]; simpl; [|discriminate].
    intros [= <-]. simpl. now rewrite (IH ys eq_refl).
Qed.

Lemma map_result_Forall {A B} (f : A -> result B) (P : B -> Prop) l out :
  (forall x y, f x = Ok y -> P y) ->
  map_result f l = Ok out -> Forall P out.
Proof.
  intros Hf. revert out. induction l as [|x l IH]; simpl; intros out.
  - intros [= <-]. constructor.
  - destruct (f x) as [y|e] eqn:E; simpl; [|discriminate].
    destruct (map_result f l) as [ys|e']; simpl; [|discriminate].
    intros [= <-]. constructor; [exact (Hf x y E)|now apply IH].
Qed.

Lemma image_urls_served imgRes out :
  image_urls imgRes = Ok out ->
  (List.length out <= 6)%nat /\ Forall served_url out.
Proof.
  unfold image_urls.
  destruct (Get imgRes (js "images")) as [images|e]; cbn [rbind];
    [|discriminate].
  destruct (or_else images (VArr [])) as [| | | | |items|];
    try discriminate.
  intros H. split.
  - rewrite (map_result_length _ _ _ H), length_firstn. apply Nat.le_min_l.
  - refine (map_result_Forall _ served_url _ _ _ H).
    intros img y.
    destruct (ToString img) as [s|e]; simpl; [|discriminate].
    intros [= <-]. now exists s.
Qed.

Lemma point_images_served net position point :
  (List.length (point_images net position point) <= 6)%nat
  /\ Forall served_url (point_images net position point).
Proof.
  unfold point_images.
  destruct (rbind (Get point (js "code")) _) as [out|e] eqn:E;
    [|split; [simpl; lia|constructor]].
  destruct (Get point (js "code")) as [code|]; simpl in E; [|discriminate].
  destruct (fetched net position code) as [imgRes|]; simpl in E;
    [|discriminate].
  exact (image_urls_served imgRes out E).
Qed.

Lemma with_images_resolved net position point :
  resolved_point (with_images point (point_images net position point)).
Proof.
  destruct (point_images_served net position point) as [Hl Hs].
  exists (obj_set (js "images") (VArr (point_images net position point))
                  (spread point)),
         (point_images net position point).
  split; [reflexivity|]. split; [apply lookup_obj_set_same|auto].
Qed.

Lemma resolved_all net points : forall position,
  Forall resolved_point (resolved net position points).
Proof.
  induction points as [|p rest IH]; intros position; simpl; constructor;
    [apply with_images_resolved|apply IH].
Qed.

Lemma loadAcupointImages_resolved net v d points d' t :
  loadAcupointImages net v d = (Ok points, d', t) ->
  Forall resolved_point points.
Proof.
  unfold loadAcupointImages.
  destruct (iterate v) as [l|]; [|discriminate].
  destruct (load_loop_run net l 0%nat [] d) as (t0 & -> & _).
  intros H; inversion H; subst. apply resolved_all.
Qed.

Lemma built_resolved d m : built d m -> resolved_message m.
Proof.
  intros (net & res & t & H). revert H.
  unfold response_message, bind, getData, lift, ret.
  destruct (Get res (js "success")) as [success|e]; [|discriminate].
  destruct (ToBoolean success); cbn [negb].
  - destruct (Get res (js "mode")) as [mode|e]; [|discriminate].
    destruct (strict_eq_str mode (js "llm")).
    + destruct (Get res (js "llm_response")) as [llm|e]; [|discriminate].
      destruct (Get res (js "recommended_acupoints")) as [rec|e];
        [|discriminate].
      destruct (loadAcupointImages net (or_else rec (VArr [])) d)
        as [[[points|e] d1] t1] eqn:E; [|discriminate].
      intros H; inversion H; subst.
      exact (loadAcupointImages_resolved _ _ _ _ _ _ E).
    + destruct (Get res (js "diagnosis")) as [diag|e]; [|discriminate].
      destruct (Get diag (js "symptom")) as [symptom|e]; [|discriminate].
      destruct (ToString symptom) as [label|e]; [|discriminate].
      destruct (Get diag (js "acupoints")) as [acs|e]; [|discriminate].
      destruct (loadAcupointImages net (or_else acs (VArr [])) d)
        as [[[points|e] d1] t1] eqn:E; [|discriminate].
      destruct (Get diag (js "disclaimer")) as [disc|e]; [|discriminate].
      intros H; inversion H; subst.
      exact (loadAcupointImages_resolved _ _ _ _ _ _ E).
  - destruct (Get res (js "message")) as [msg|e]; [|discriminate].
    intros H; inversion H; subst. exact I.
Qed.

Lemma session_resolved (es : list ui_event) :
  Forall resolved_message (messages (fst (run_session es initial_data))).
Proof.
  pose proof (session_rule (fun d => Forall resolved_message (messages d))
                           (fun _ _ _ => True)) as H.
  specialize (H (fun _ => I) (fun _ _ _ _ _ _ _ => I)).
  specialize (H (fun d v Hd => conj Hd I)).
  assert (Hout : forall d d2 m,
             Forall resolved_message (messages d) ->
             resolved_message m ->
             messages d2 = filter not_loading (messages (accepted d)) ++ [m] ->
             Forall resolved_message (messages (finalized d2)) /\ True).
  { intros d d2 m Hd Hm Hlog. split; [|exact I]. simpl. rewrite Hlog. simpl.
    rewrite filter_not_loading_accepted, <- app_assoc.
    apply Forall_app. split.
    - apply Forall_forall. intros x Hx. apply filter_In in Hx as [Hx _].
      rewrite Forall_forall in Hd. now apply Hd.
    - repeat constructor. exact Hm. }
  specialize (H (fun d m Hd Ha Hm =>
                   Hout d (settled (accepted d) m) m Hd
                        (built_resolved _ _ Hm) eq_refl)).
  specialize (H (fun d Hd Ha =>
                   Hout d (failed (accepted d))
                        (TextMsg (messageId (accepted d) + 1)
                                 (VStr NETWORK_ERROR_TEXT))
                        Hd I eq_refl)).
  specialize (H es initial_data (Forall_nil _)).
  destruct (run_session es initial_data) as [d t]. now destruct H.
Qed.

(** X6. Whatever the servers answer during a session, every point of every
    diagnosis message in the log is an object whose [images] is an array
    of at most six strings, each of them [apiBase] followed by a path. *)
Theorem points_in_log_resolved (es : list ui_event) (m : message)
        (points : list value) (point : value) :
  In m (messages (fst (run_session es initial_data))) ->
  message_acupoints m = Some points ->
  In point points ->
  exists props images,
    point = VObj props
    /\ lookup (js "images") props = Some (VArr images)
    /\ (List.length images <= 6)%nat
    /\ forall u, In u images -> exists path, u = VStr (apiBase ++ path).
Proof.
  intros Hm Hpoints Hpoint.
  pose proof (session_resolved es) as H. rewrite Forall_forall in H.
  specialize (H m Hm). unfold resolved_message in H. rewrite Hpoints in H.
  rewrite Forall_forall in H.
  destruct (H point Hpoint) as (props & images & -> & Hl & Hlen & Hs).
  exists props, images. repeat split; auto.
  rewrite Forall_forall in Hs. exact Hs.
Qed.

(** ** Previewing images *)

Lemma collect_point_images_resolved points : forall allImages,
  Forall resolved_point points ->
  collect_point_images points allImages
  = Ok (allImages ++ flat_map images_of points).
Proof.
  induction points as [|p rest IH]; intros allImages H; simpl.
  - now rewrite app_nil_r.
  - inversion H as [|? ? (props & images & -> & Hl & _) Hrest]; subst.
    simpl. rewrite Hl. simpl. rewrite (IH _ Hrest). now rewrite app_assoc.
Qed.

Lemma collect_images_resolved log : forall allImages,
  Forall resolved_message log ->
  collect_images log allImages = Ok (allImages ++ log_images log).
Proof.
  induction log as [|m rest IH]; intros allImages H; simpl.
  - now rewrite app_nil_r.
  - inversion H as [|? ? Hm Hrest]; subst. unfold resolved_message in Hm.
    destruct (message_acupoints m) as [points|].
    + rewrite (collect_point_images_resolved points allImages Hm). simpl.
      rewrite (IH _ Hrest). now rewrite app_assoc.
    + exact (IH _ Hrest).
Qed.

(** X7. After any session a tap on an image returns normally.  It
    previews the tapped image within the images of all the points of all
    the diagnosis messages of the log, in log order, each of them a url
    below [apiBase]; when the log has no image at all, the tapped image
    alone.  The list of urls is never empty. *)
Theorem image_tap_previews_log (es : list ui_event) (src : value) :
  let d := fst (run_session es initial_data) in
  exists urls,
    onImageTap src d = Ok (src, urls)
    /\ urls <> []
    /\ (log_images (messages d) = [] -> urls = [src])
    /\ (log_images (messages d) <> [] ->
        urls = log_images (messages d)
        /\ forall u, In u urls -> exists path, u = VStr (apiBase ++ path)).
Proof.
  intros d. pose proof (session_resolved es) as Hres. fold d in Hres.
  unfold onImageTap. rewrite (collect_images_resolved _ [] Hres). simpl.
  assert (Hserved : Forall served_url (log_images (messages d))).
  { unfold log_images. rewrite Forall_forall in *. intros u Hu.
    apply in_flat_map in Hu as (m & Hm & Hu). specialize (Hres m Hm).
    unfold resolved_message in Hres.
    destruct (message_acupoints m) as [points|]; [|destruct Hu].
    apply in_flat_map in Hu as (p & Hp & Hu).
    rewrite Forall_forall in Hres.
    destruct (Hres p Hp) as (props & images & -> & Hl & _ & Hs).
    simpl in Hu. rewrite Hl in Hu. rewrite Forall_forall in Hs. now apply Hs. }
  destruct (log_images (messages d)) as [|u us] eqn:E.
  - exists [src]. split; [reflexivity|]. split; [discriminate|].
    split; [reflexivity|congruence].
  - exists (u :: us). split; [reflexivity|]. split; [discriminate|].
    split; [discriminate|]. intros _. split; [reflexivity|].
    rewrite Forall_forall in Hserved. exact Hserved.
Qed.

(** ** Requests *)

Lemma requests_app t1 t2 : requests (t1 ++ t2) = requests t1 ++ requests t2.
Proof.
  induction t1 as [|[d|m u b|l e] t1 IH]; simpl; congruence.
Qed.

Lemma getImages_requests net position code d r d' t :
  getImages net position code d = (r, d', t) ->
  Forall image_get (requests t) /\ (List.length (requests t) <= 1)%nat.
Proof.
  unfold getImages, bind, lift, wx_request, ret.
  destruct (ToString code) as [c|e]; simpl.
  - destruct (image_response net position _) as [sc data|msg];
      [destruct (sc =? 200)|]; intros H; inversion H; subst; simpl;
        (split; [repeat constructor; now exists c|lia]).
  - intros H; inversion H; subst. simpl. split; [constructor|lia].
Qed.

Lemma load_one_requests net position point results d r d' t :
  load_one net position point results d = (r, d', t) ->
  Forall image_get (requests t) /\ (List.length (requests t) <= 1)%nat.
Proof.
  unfold load_one, try_catch, bind, lift, console_error, ret.
  destruct (Get point (js "code")) as [code|e]; simpl.
  - destruct (getImages net position code d) as [[[imgRes|e] d1] t1] eqn:E;
      destruct (getImages_requests _ _ _ _ _ _ _ E) as [H1 H2].
    + destruct (image_urls imgRes) as [images|e]; simpl;
        intros H; inversion H; subst;
          rewrite ?requests_app; simpl; rewrite ?app_nil_r; auto.
    + intros H; inversion H; subst.
      rewrite ?requests_app; simpl; rewrite ?app_nil_r; auto.
  - intros H; inversion H; subst. simpl. split; [constructor|lia].
Qed.

Lemma load_loop_requests net points : forall position results d r d' t,
  load_loop net position points results d = (r, d', t) ->
  Forall image_get (requests t)
  /\ (List.length (requests t) <= List.length points)%nat.
Proof.
  induction points as [|p rest IH]; intros position results d r d' t; simpl.
  - unfold ret. intros H; inversion H; subst. simpl. auto.
  - unfold bind.
    destruct (load_one net position p results d) as [[[res1|e] d1] t1] eqn:E1;
      destruct (load_one_requests _ _ _ _ _ _ _ _ E1) as [H1 L1].
    + destruct (load_loop net (S position) rest res1 d1)
        as [[r2 d2] t2] eqn:E2.
      destruct (IH _ _ _ _ _ _ E2) as [H2 L2].
      intros H; inversion H; subst. rewrite requests_app, length_app.
      split; [now apply Forall_app|lia].
    + intros H; inversion H; subst. split; [exact H1|lia].
Qed.

Lemma loadAcupointImages_requests net v d r d' t :
  loadAcupointImages net v d = (r, d', t) ->
  Forall image_get (requests t)
  /\ match r with
     | Ok points => (List.length (requests t) <= List.length points)%nat
     | Throw _ => requests t = []
     end.
Proof.
  unfold loadAcupointImages.
  destruct (iterate v) as [l|].
  - intros H. destruct (load_loop_requests _ _ _ _ _ _ _ _ H) as [H1 H2].
    split; [exact H1|].
    destruct (load_loop_run net l 0%nat [] d) as (t0 & E & _).
    rewrite E in H. inversion H; subst. simpl.
    now rewrite resolved_length.
  - unfold throw. intros H; inversion H; subst. simpl. auto.
Qed.

Lemma response_message_requests net res d r d' t :
  response_message net res d = (r, d', t) ->
  Forall image_get (requests t)
  /\ match r with
     | Ok m => (List.length (requests t) <= points_shown m)%nat
     | Throw _ => requests t = []
     end.
Proof.
  unfold response_message, bind, getData, lift, ret.
  destruct (Get res (js "success")) as [success|e];
    [|intros H; inversion H; subst; simpl; auto].
  destruct (ToBoolean success); cbn [negb].
  - destruct (Get res (js "mode")) as [mode|e];
      [|intros H; inversion H; subst; simpl; auto].
    destruct (strict_eq_str mode (js "llm")).
    + destruct (Get res (js "llm_response")) as [llm|e];
        [|intros H; inversion H; subst; simpl; auto].
      destruct (Get res (js "recommended_acupoints")) as [rec|e];
        [|intros H; inversion H; subst; simpl; auto].
      destruct (loadAcupointImages net (or_else rec (VArr [])) d)
        as [[[points|e] d1] t1] eqn:E;
        destruct (loadAcupointImages_requests _ _ _ _ _ _ E) as [H1 H2];
        intros H; inversion H; subst; cbn [app];
          rewrite ?requests_app; simpl; rewrite ?app_nil_r; auto.
    + destruct (Get res (js "diagnosis")) as [diag|e];
        [|intros H; inversion H; subst; simpl; auto].
      destruct (Get diag (js "symptom")) as [symptom|e] eqn:Esym;
        [|intros H; inversion H; subst; simpl; auto].
      destruct (ToString symptom) as [label|e];
        [|intros H; inversion H; subst; simpl; auto].
      destruct (Get diag (js "acupoints")) as [acs|e];
        [|intros H; inversion H; subst; simpl; auto].
      destruct (Get_defined diag _ _ (js "disclaimer") Esym) as (disc & ->).
      destruct (loadAcupointImages net (or_else acs (VArr [])) d)
        as [[[points|e] d1] t1] eqn:E;
        destruct (loadAcupointImages_requests _ _ _ _ _ _ E) as [H1 H2];
        intros H; inversion H; subst; cbn [app];
          rewrite ?requests_app; simpl; rewrite ?app_nil_r; auto.
  - destruct (Get res (js "message")) as [msg|e];
      intros H; inversion H; subst; simpl; auto.
Qed.

(** X8. An accepted submission first renders the user's message with the
    loading message and then posts the trimmed input to [apiBase/chat];
    this is its only request to that address.  All its other requests are
    GETs below [apiBase/images/], at most one for each point the terminal
    message shows, and none when the terminal message is a text. *)
Theorem one_chat_request_then_images (net : network) (d : page_data) :
  is_accepted d ->
  exists d' terminal rest,
    sendMessage net d
    = (Ok tt, d',
       Render (accepted d)
         :: Request POST (apiBase ++ js "/chat") (Some (trim (inputValue d)))
         :: rest)
    /\ messages d'
       = filter not_loading (messages d)
         ++ [UserMsg (messageId d + 1) (trim (inputValue d)); terminal]
    /\ Forall image_get (requests rest)
    /\ (List.length (requests rest) <= points_shown terminal)%nat.
Proof.
  intros Ha. rewrite (sendMessage_run net d Ha). unfold try_catch.
  rewrite sendMessage_try_run.
  assert (Hlog : forall m,
             filter not_loading (messages (accepted d)) ++ [m]
             = filter not_loading (messages d)
               ++ [UserMsg (messageId d + 1) (trim (inputValue d)); m]).
  { intros m. simpl. now rewrite filter_not_loading_accepted, <- app_assoc. }
  assert (Hcatch : forall e,
             exists d' terminal rest,
               match sendMessage_catch e (accepted d) with
               | (r, d2, t2) =>
                 match r with
                 | Ok _ =>
                   (Ok tt, finalized d2,
                    Render (accepted d)
                      :: ([Request POST (apiBase ++ js "/chat")
                                   (Some (trim (inputValue d)))] ++ t2)
                      ++ [Render (finalized d2)])
                 | Throw e' =>
                   (Throw e', d2,
                    Render (accepted d)
                      :: [Request POST (apiBase ++ js "/chat")
                                  (Some (trim (inputValue d)))] ++ t2)
                 end
               end
               = (Ok tt, d',
                  Render (accepted d)
                    :: Request POST (apiBase ++ js "/chat")
                               (Some (trim (inputValue d)))
                    :: rest)
               /\ messages d'
                  = filter not_loading (messages d)
                    ++ [UserMsg (messageId d + 1) (trim (inputValue d));
                        terminal]
               /\ Forall image_get (requests rest)
               /\ (List.length (requests rest) <= points_shown terminal)%nat).
  { intros e. rewrite sendMessage_catch_run.
    do 3 eexists. split; [reflexivity|]. split; [apply Hlog|].
    simpl. split; [constructor|lia]. }
  destruct (chat_response net (trim (inputValue d))) as [sc res|msg];
    [|apply Hcatch].
  destruct (sc =? 200); [|apply Hcatch].
  destruct (response_message_any net res (accepted d))
    as (r & t0 & Hmsg & Ht0 & _).
  destruct (response_message_requests _ _ _ _ _ _ Hmsg) as [Hget Hcount].
  rewrite Hmsg. destruct r as [m|e].
  - do 3 eexists. split; [reflexivity|]. split; [apply Hlog|].
    rewrite !requests_app. simpl. rewrite !app_nil_r. auto.
  - rewrite sendMessage_catch_run.
    do 3 eexists. split; [reflexivity|]. split; [apply Hlog|].
    rewrite !requests_app, Hcount. simpl. split; [constructor|lia].
Qed.

(** ** Anchors *)

Lemma bytes_inj (a b : string) : Utf8.bytes a = Utf8.bytes b -> a = b.
Proof.
  unfold Utf8.bytes. intros H.
  apply (f_equal (map ascii_of_N)) in H. rewrite !map_map in H.
  rewrite !(map_ext _ (fun x => x) ascii_N_embedding), !map_id in H.
  apply (f_equal string_of_list_ascii) in H.
  now rewrite !string_of_list_ascii_of_string in H.
Qed.

Lemma to_int_proper (z : Z) :
  Z.to_int z <> Decimal.Pos Decimal.Nil /\ Z.to_int z <> Decimal.Neg Decimal.Nil.
Proof.
  destruct z as [|p|p]; simpl; split; try discriminate;
    intros [= H]; exact (DecimalPos.Unsigned.to_uint_nonnil p H).
Qed.

Lemma Number_toString_inj (a b : Z) :
  Number_toString a = Number_toString b -> a = b.
Proof.
  unfold Number_toString. intros H. apply bytes_inj in H.
  apply DecimalZ.to_int_inj.
  destruct (to_int_proper a) as [Ha1 Ha2], (to_int_proper b) as [Hb1 Hb2].
  pose proof (NilZero.isi _ Ha1 Ha2) as Ea.
  pose proof (NilZero.isi _ Hb1 Hb2) as Eb.
  rewrite H in Ea. congruence.
Qed.

Lemma msg_anchor_inj (a b : Z) : msg_anchor a = msg_anchor b -> a = b.
Proof.
  unfold msg_anchor. intros H. apply app_inv_head in H.
  now apply Number_toString_inj.
Qed.

Lemma try_returns net message d0 u d1 t1 :
  sendMessage_try net message d0 = (Ok u, d1, t1) ->
  exists m, terminal_for d0 m /\ d1 = settled d0 m.
Proof.
  rewrite sendMessage_try_run.
  destruct (chat_response net message) as [sc res|msg]; [|discriminate].
  destruct (sc =? 200); [|discriminate].
  destruct (response_message_any net res d0) as (r & t0 & -> & _ & Hterm).
  destruct r as [m|e]; [|discriminate].
  intros H. exists m. split; [now apply Hterm|].
  inversion H; subst. reflexivity.
Qed.

Lemma try_throws_iff net message d0 :
  (exists e t0, sendMessage_try net message d0 = (Throw e, d0, t0))
  <-> transport_failure (chat_response net message)
      \/ exists res e t0,
          chat_response net message = WxSuccess 200 res
          /\ response_message net res d0 = (Throw e, d0, t0).
Proof.
  split.
  - intros (e & t1 & H). revert H. rewrite sendMessage_try_run.
    destruct (chat_response net message) as [sc res|msg]; [|now left].
    destruct (sc =? 200) eqn:Esc; [|left; now apply Z.eqb_neq].
    apply Z.eqb_eq in Esc. subst sc.
    destruct (response_message_any net res d0) as (r & t0 & Hmsg & _).
    rewrite Hmsg. destruct r as [m|e']; [discriminate|].
    intros _. right. now exists res, e', t0.
  - intros [Hfail|(res & e & t0 & Hresp & Hmsg)].
    + destruct (try_transport_failure net message d0 Hfail) as (e & t & H & _).
      now exists e, t.
    + rewrite sendMessage_try_run, Hresp, Z.eqb_refl, Hmsg.
      now do 2 eexists.
Qed.

Lemma try_throws_keeps_data net message d0 e d1 t1 :
  sendMessage_try net message d0 = (Throw e, d1, t1) -> d1 = d0.
Proof.
  rewrite sendMessage_try_run.
  destruct (chat_response net message) as [sc res|msg];
    [|intros H; now inversion H].
  destruct (sc =? 200); [|intros H; now inversion H].
  destruct (response_message_any net res d0) as (r & t0 & -> & _).
  destruct r as [m|e']; [discriminate|]. intros H; now inversion H.
Qed.

(** X9. Where the page is left scrolled.  When the body of the [try]
    returns, [scrollToView] ends as the anchor of the terminal message, the
    last of the log.  When it throws, which it does exactly when the chat
    request fails or is answered with a status other than 200, or when
    building the message from the response throws (a [TypeError], say),
    [scrollToView] still is the anchor of the loading message, which has
    been removed: no message of the log has that anchor.  Different ids
    have different anchors. *)
Theorem scroll_anchor_after_submission (net : network) (d : page_data) :
  is_accepted d ->
  Forall (fun m => msg_id m <= messageId d) (messages d) ->
  exists t d' terminal,
    sendMessage net d = (Ok tt, d', t)
    /\ messages d'
       = filter not_loading (messages d)
         ++ [UserMsg (messageId d + 1) (trim (inputValue d)); terminal]
    /\ msg_id terminal = messageId d + 3
    /\ match sendMessage_try net (trim (inputValue d)) (accepted d) with
       | (Ok _, _, _) => scrollToView d' = msg_anchor (msg_id terminal)
       | (Throw _, _, _) =>
         scrollToView d' = msg_anchor (messageId d + 2)
         /\ terminal = TextMsg (messageId d + 3) (VStr NETWORK_ERROR_TEXT)
         /\ forall m, In m (messages d') ->
                      msg_anchor (msg_id m) <> scrollToView d'
       end
    /\ ((exists e t0,
            sendMessage_try net (trim (inputValue d)) (accepted d)
            = (Throw e, accepted d, t0))
        <-> transport_failure (chat_response net (trim (inputValue d)))
            \/ exists res e t0,
                chat_response net (trim (inputValue d)) = WxSuccess 200 res
                /\ response_message net res (accepted d)
                   = (Throw e, accepted d, t0))
    /\ forall a b, msg_anchor a = msg_anchor b -> a = b.
Proof.
  intros Ha Hids.
  assert (Hlog : forall m,
             filter not_loading (messages (accepted d)) ++ [m]
             = filter not_loading (messages d)
               ++ [UserMsg (messageId d + 1) (trim (inputValue d)); m]).
  { intros m. simpl. now rewrite filter_not_loading_accepted, <- app_assoc. }
  pose proof (sendMessage_run net d Ha) as Hrun. unfold try_catch in Hrun.
  pose proof (try_throws_iff net (trim (inputValue d)) (accepted d)) as Hiff.
  destruct (sendMessage_try net (trim (inputValue d)) (accepted d))
    as [[[u|e] d1] t1] eqn:Etry.
  - destruct (try_returns _ _ _ _ _ _ Etry) as (m & (Hid & _) & ->).
    simpl in Hid.
    do 2 eexists. exists m. split; [exact Hrun|]. split; [apply Hlog|].
    split; [lia|]. split; [simpl; now rewrite Hid|].
    split; [exact Hiff|exact msg_anchor_inj].
  - pose proof (try_throws_keeps_data _ _ _ _ _ _ Etry) as ->.
    rewrite sendMessage_catch_run in Hrun.
    assert (E : scrollToView (finalized (failed (accepted d)))
                = msg_anchor (messageId d + 2)).
    { simpl. f_equal. lia. }
    do 2 eexists. exists (TextMsg (messageId d + 3) (VStr NETWORK_ERROR_TEXT)).
    split; [exact Hrun|]. split.
    { simpl. rewrite filter_not_loading_accepted, <- app_assoc. simpl.
      now replace (messageId d + 1 + 1 + 1) with (messageId d + 3) by lia. }
    split; [reflexivity|]. split; [|split; [exact Hiff|exact msg_anchor_inj]].
    split; [exact E|]. split; [reflexivity|].
    intros m Hm. rewrite E. intros Heq. apply msg_anchor_inj in Heq.
    simpl in Hm. rewrite filter_not_loading_accepted, <- app_assoc in Hm.
    apply in_app_or in Hm as [Hm|[<-|[<-|[]]]]; simpl in Heq; try lia.
    apply filter_In in Hm as [Hm _]. rewrite Forall_forall in Hids.
    specialize (Hids m Hm). lia.
Qed.

(** ** Answers the page cannot use *)

Lemma response_llm_not_iterable net props d :
  ToBoolean (field props (js "success")) = true ->
  strict_eq_str (field props (js "mode")) (js "llm") = true ->
  iterate (or_else (field props (js "recommended_acupoints")) (VArr [])) = None ->
  response_message net (VObj props) d = (Throw TypeError, d, []).
Proof.
  intros Hs Hmode Hit. unfold response_message, bind, getData, lift, ret.
  rewrite !Get_object. cbv beta iota. rewrite Hs. cbn [negb]. cbv beta iota.
  rewrite Hmode. cbv beta iota. unfold loadAcupointImages. now rewrite Hit.
Qed.

Lemma response_keyword_not_iterable net props d diag label :
  ToBoolean (field props (js "success")) = true ->
  strict_eq_str (field props (js "mode")) (js "llm") = false ->
  field props (js "diagnosis") = VObj diag ->
  ToString (field diag (js "symptom")) = Ok label ->
  iterate (or_else (field diag (js "acupoints")) (VArr [])) = None ->
  response_message net (VObj props) d = (Throw TypeError, d, []).
Proof.
  intros Hs Hmode Hdiag Hlabel Hit.
  unfold response_message, bind, getData, lift, ret.
  rewrite !Get_object. cbv beta iota. rewrite Hs. cbn [negb]. cbv beta iota.
  rewrite Hmode, Hdiag. cbv beta iota.
  rewrite !Get_object. cbv beta iota. rewrite Hlabel. cbv beta iota.
  unfold loadAcupointImages. now rewrite Hit.
Qed.

(** X10. A response that reports success but whose list of points is
    neither an array nor a string nor falsy (an object, a non-zero number,
    [true]) cannot be iterated: in either mode the submission ends in the
    [catch] block, with the cannot-reach-the-server text, although the
    server was reached and answered 200. *)
Theorem unusable_point_list_recovers (net : network) (d : page_data)
        (props : list (jsstring * value)) :
  is_accepted d ->
  chat_response net (trim (inputValue d)) = WxSuccess 200 (VObj props) ->
  ToBoolean (field props (js "success")) = true ->
  (strict_eq_str (field props (js "mode")) (js "llm") = true ->
   iterate (or_else (field props (js "recommended_acupoints")) (VArr []))
   = None ->
   recovered net d)
  /\ (strict_eq_str (field props (js "mode")) (js "llm") = false ->
      forall diag label,
        field props (js "diagnosis") = VObj diag ->
        ToString (field diag (js "symptom")) = Ok label ->
        iterate (or_else (field diag (js "acupoints")) (VArr [])) = None ->
        recovered net d).
Proof.
  intros Ha Hresp Hs. split.
  - intros Hmode Hit. apply failed_recovered.
    apply (submission_of_response_throw net d (VObj props) TypeError []
             Ha Hresp); [|reflexivity].
    now apply response_llm_not_iterable.
  - intros Hmode diag label Hdiag Hlabel Hit. apply failed_recovered.
    apply (submission_of_response_throw net d (VObj props) TypeError []
             Ha Hresp); [|reflexivity].
    now apply (response_keyword_not_iterable net props _ diag label).
Qed.

(** ** Where images come from *)

Lemma resolved_nth_inv net points : forall position i v,
  nth_error (resolved net position points) i = Some v ->
  exists point,
    nth_error points i = Some point
    /\ v = with_images point (point_images net (position + i) point).
Proof.
  induction points as [|p rest IH]; intros position [|i] v H;
    simpl in *; try discriminate.
  - injection H as <-. exists p. now rewrite Nat.add_0_r.
  - destruct (IH (S position) i v H) as (point & Hp & ->).
    exists point. split; [exact Hp|]. now rewrite Nat.add_succ_r.
Qed.

Lemma image_urls_nonempty imgRes images :
  image_urls imgRes = Ok images -> images <> [] ->
  exists items,
    Get imgRes (js "images") = Ok (VArr items)
    /\ items <> []
    /\ List.length images = Nat.min (List.length items) 6.
Proof.
  unfold image_urls.
  destruct (Get imgRes (js "images")) as [v|e]; cbn [rbind]; [|discriminate].
  unfold or_else.
  destruct (ToBoolean v) eqn:Ev.
  - destruct v as [| | | | |items|]; try discriminate.
    intros H Hne. exists items. split; [reflexivity|].
    pose proof (map_result_length _ _ _ H) as Hlen.
    rewrite length_firstn in Hlen. split; [|now rewrite Nat.min_comm].
    intros ->. simpl in H. injection H as <-. now apply Hne.
  - simpl. intros [= <-] Hne. now destruct Hne.
Qed.

(** X11. A resolved point has images only if the request for it was
    answered with status 200 and a body whose [images] is a non-empty
    array; it then has as many as the array, up to six.  Any other
    answer, a failure, or a point without a usable [code] leave it with
    none. *)
Theorem images_need_a_good_answer (net : network) (points : list value)
        (d : page_data) (out : list value) (t : list effect) (i : nat)
        (oprops : list (jsstring * value)) (images : list value) :
  loadAcupointImages net (VArr points) d = (Ok out, d, t) ->
  nth_error out i = Some (VObj oprops) ->
  lookup (js "images") oprops = Some (VArr images) ->
  images <> [] ->
  exists point code c body items,
    nth_error points i = Some point
    /\ Get point (js "code") = Ok code
    /\ ToString code = Ok c
    /\ image_response net i (apiBase ++ js "/images/" ++ c)
       = WxSuccess 200 body
    /\ Get body (js "images") = Ok (VArr items)
    /\ items <> []
    /\ List.length images = Nat.min (List.length items) 6.
Proof.
  intros Hrun Hi Hl Hne.
  destruct (loadAcupointImages_array net points d) as (t0 & Hrun0 & _).
  rewrite Hrun0 in Hrun. injection Hrun as <- _.
  destruct (resolved_nth_inv net points 0 i _ Hi) as (point & Hp & Hv).
  simpl in Hv. unfold with_images in Hv. injection Hv as ->.
  rewrite lookup_obj_set_same in Hl. injection Hl as <-.
  revert Hne. unfold point_images, fetched.
  destruct (Get point (js "code")) as [code|e] eqn:Ecode; cbn [rbind];
    [|intros H; now destruct H].
  destruct (ToString code) as [c|e] eqn:Ec; cbn [rbind];
    [|intros H; now destruct H].
  assert (Hnone : image_urls no_images = Ok []) by reflexivity.
  destruct (image_response net i (apiBase ++ js "/images/" ++ c))
    as [sc body|msg] eqn:Hresp;
    [|cbn [rbind]; rewrite Hnone; intros H; now destruct H].
  destruct (sc =? 200) eqn:Esc; cbn [rbind];
    [|rewrite Hnone; intros H; now destruct H].
  apply Z.eqb_eq in Esc. subst sc.
  destruct (image_urls body) as [imgs|e] eqn:Eurls;
    [|intros H; now destruct H].
  intros Hne.
  destruct (image_urls_nonempty body imgs Eurls Hne) as (items & H1 & H2 & H3).
  exists point, code, c, body, items.
  split; [exact Hp|]. split; [exact Ecode|]. split; [exact Ec|].
  split; [exact Hresp|]. split; [exact H1|]. split; [exact H2|exact H3].
Qed.

(** ** Quick taps *)



(** * The detail page *)

Lemma detail_requests_app t1 t2 :
  detail_requests (t1 ++ t2) = detail_requests t1 ++ detail_requests t2.
Proof.
  induction t1 as [|[] t1 IH]; simpl; congruence.
Qed.

Lemma detail_image_urls_served listed urls :
  detail_image_urls listed = Ok urls ->
  Forall served_url urls
  /\ exists items, listed = VArr items
                   /\ List.length urls = List.length items.
Proof.
  destruct listed as [| | | | |items|]; try discriminate. simpl.
  intros H. split.
  - refine (map_result_Forall _ served_url _ _ _ H).
    intros img y. destruct (ToString img) as [s|e]; simpl; [|discriminate].
    intros [= <-]. now exists s.
  - exists items. split; [reflexivity|exact (map_result_length _ _ _ H)].
Qed.

Ltac detail_step :=
  match goal with
  | |- context [match ?x with _ => _ end] =>
    match x with
    | ToString _ => destruct x eqn:?
    | Get _ _ => destruct x eqn:?
    | ToBoolean _ => destruct x eqn:?
    | detail_image_urls _ => destruct x eqn:?
    | _ => match type of x with wx_result => destruct x eqn:? end
    end
  | |- context [if ?x then _ else _] => destruct x eqn:?
  end; cbn [app] in *.

(** X13. [loadAcupoint] always returns normally.  It asks for the point
    first and for its images second, and never for anything else; it does
    not ask for the images when the first request fails or its answer
    cannot be processed, and asks for nothing when the code has no string
    form.  It shows the failure toast at most once; it shows it whenever
    the images have not been asked for, so that when it shows none both
    requests have been made. *)
Theorem loadAcupoint_requests_in_order (net : detail_network) (code : value)
        (d : detail_data) :
  exists d' t,
    loadAcupoint net code d = (Ok tt, d', t)
    /\ (toasts t = [] \/ toasts t = [js "加载失败"])
    /\ (forall e, ToString code = Throw e ->
                  detail_requests t = [] /\ toasts t = [js "加载失败"])
    /\ (forall c,
           ToString code = Ok c ->
           (detail_requests t = [apiBase ++ js "/acupoint/" ++ c]
            /\ toasts t = [js "加载失败"])
           \/ detail_requests t = [apiBase ++ js "/acupoint/" ++ c;
                                   apiBase ++ js "/images/" ++ c])
    /\ ((List.length (detail_requests t) < 2)%nat ->
        toasts t = [js "加载失败"])
    /\ (toasts t = [] ->
        exists c,
          ToString code = Ok c
          /\ detail_requests t = [apiBase ++ js "/acupoint/" ++ c;
                                  apiBase ++ js "/images/" ++ c]).
Proof.
  unfold loadAcupoint, dtry_catch, loadAcupoint_try, loadAcupoint_catch,
    request, dbind, dlift, dret, detail_setData, detail_emit.
  repeat detail_step;
    do 2 eexists; (split; [reflexivity|]); simpl;
      (split; [auto|]);
      (split; [intros; first [congruence | split; reflexivity]|]);
      (split; [intros c' [= <-]; auto|]);
      (split; [intros; first [reflexivity | lia]|]);
      intros; first [discriminate | eexists; split; reflexivity].
Qed.

(** X14. When both requests are answered, with any status, the first with
    a body reporting success and carrying an acupoint object, the second
    with a body whose [images] is a list of paths, the page stores the
    acupoint, sets the title to its [chinese_name] (to the code when it has
    none), and stores all the paths, each prefixed with [apiBase], however
    many they are; no toast is shown. *)
Theorem loadAcupoint_shows_all_images (net : detail_network) (code : value)
        (c : jsstring) (d : detail_data) (sc1 sc2 : Z)
        (body1 body2 : list (jsstring * value)) (found name : value)
        (paths : list jsstring) :
  ToString code = Ok c ->
  net 0%nat (apiBase ++ js "/acupoint/" ++ c) = WxSuccess sc1 (VObj body1) ->
  ToBoolean (field body1 (js "success")) = true ->
  field body1 (js "acupoint") = found ->
  Get found (js "chinese_name") = Ok name ->
  net 1%nat (apiBase ++ js "/images/" ++ c) = WxSuccess sc2 (VObj body2) ->
  field body2 (js "images") = VArr (map VStr paths) ->
  let urls := map (fun path => VStr (apiBase ++ path)) paths in
  loadAcupoint net code d
  = (Ok tt,
     {| acupoint := found; images := urls |},
     [DetailRequest (apiBase ++ js "/acupoint/" ++ c);
      DetailRender {| acupoint := found; images := images d |};
      SetNavigationBarTitle (or_else name code);
      DetailRequest (apiBase ++ js "/images/" ++ c);
      DetailRender {| acupoint := found; images := urls |}])
  /\ List.length urls = List.length paths.
Proof.
  intros Hc H1 Hs Hf Hn H2 Hi urls. split; [|apply length_map].
  unfold loadAcupoint, dtry_catch, loadAcupoint_try, request, dbind, dlift,
    dret, detail_setData, detail_emit.
  rewrite Hc, H1, !Get_object, Hs, Hf, Hn, H2, !Get_object, Hi.
  cbn [ToBoolean detail_image_urls]. rewrite map_result_prefix. reflexivity.
Qed.

(** X15. When the request for the point fails, the images are not asked
    for, the data is left as it was, and the failure toast is shown. *)
Theorem loadAcupoint_first_request_fails (net : detail_network)
        (code : value) (c : jsstring) (d : detail_data) (errMsg : jsstring) :
  ToString code = Ok c ->
  net 0%nat (apiBase ++ js "/acupoint/" ++ c) = WxFail errMsg ->
  loadAcupoint net code d
  = (Ok tt, d,
     [DetailRequest (apiBase ++ js "/acupoint/" ++ c);
      DetailConsoleError (js "加载穴位详情失败:") (RequestFailed errMsg);
      ShowToast (js "加载失败")]).
Proof.
  intros Hc H1.
  unfold loadAcupoint, dtry_catch, loadAcupoint_try, loadAcupoint_catch,
    request, dbind, dlift, dret, detail_emit.
  now rewrite Hc, H1.
Qed.

(** X16. When the point is found but the request for its images fails,
    the acupoint and the title are already set and stay so; the images are
    those shown before, and the failure toast is shown. *)
Theorem loadAcupoint_images_request_fails (net : detail_network)
        (code : value) (c : jsstring) (d : detail_data) (sc1 : Z)
        (body1 : list (jsstring * value)) (found name : value)
        (errMsg : jsstring) :
  ToString code = Ok c ->
  net 0%nat (apiBase ++ js "/acupoint/" ++ c) = WxSuccess sc1 (VObj body1) ->
  ToBoolean (field body1 (js "success")) = true ->
  field body1 (js "acupoint") = found ->
  Get found (js "chinese_name") = Ok name ->
  net 1%nat (apiBase ++ js "/images/" ++ c) = WxFail errMsg ->
  loadAcupoint net code d
  = (Ok tt,
     {| acupoint := found; images := images d |},
     [DetailRequest (apiBase ++ js "/acupoint/" ++ c);
      DetailRender {| acupoint := found; images := images d |};
      SetNavigationBarTitle (or_else name code);
      DetailRequest (apiBase ++ js "/images/" ++ c);
      DetailConsoleError (js "加载穴位详情失败:") (RequestFailed errMsg);
      ShowToast (js "加载失败")]).
Proof.
  intros Hc H1 Hs Hf Hn H2.
  unfold loadAcupoint, dtry_catch, loadAcupoint_try, loadAcupoint_catch,
    request, dbind, dlift, dret, detail_setData, detail_emit.
  now rewrite Hc, H1, !Get_object, Hs, Hf, Hn, H2.
Qed.

(** X17. An answer to the first request that does not report success is
    passed over in silence: the acupoint and the title are left alone, no
    toast is shown for it, and the images are asked for and stored all the
    same. *)
Theorem loadAcupoint_not_found_is_silent (net : detail_network)
        (code : value) (c : jsstring) (d : detail_data) (sc1 sc2 : Z)
        (res1 success : value) (body2 : list (jsstring * value))
        (paths : list jsstring) :
  ToString code = Ok c ->
  net 0%nat (apiBase ++ js "/acupoint/" ++ c) = WxSuccess sc1 res1 ->
  Get res1 (js "success") = Ok success ->
  ToBoolean success = false ->
  net 1%nat (apiBase ++ js "/images/" ++ c) = WxSuccess sc2 (VObj body2) ->
  field body2 (js "images") = VArr (map VStr paths) ->
  let urls := map (fun path => VStr (apiBase ++ path)) paths in
  loadAcupoint net code d
  = (Ok tt,
     {| acupoint := acupoint d; images := urls |},
     [DetailRequest (apiBase ++ js "/acupoint/" ++ c);
      DetailRequest (apiBase ++ js "/images/" ++ c);
      DetailRender {| acupoint := acupoint d; images := urls |}]).
Proof.
  intros Hc H1 Hs Hfalse H2 Hi urls.
  unfold loadAcupoint, dtry_catch, loadAcupoint_try, request, dbind, dlift,
    dret, detail_setData, detail_emit.
  rewrite Hc, H1, Hs, Hfalse, H2, !Get_object, Hi.
  cbn [ToBoolean detail_image_urls]. rewrite map_result_prefix. reflexivity.
Qed.

(** X18. Whatever the answers, the images of the detail page are either
    the ones it had or a new list with one url below [apiBase] for each
    element of the array the second request was answered with: the list is
    not capped, and it is replaced as a whole or not at all. *)
Theorem loadAcupoint_images_replaced_as_a_whole (net : detail_network)
        (code : value) (d : detail_data) :
  exists d' t,
    loadAcupoint net code d = (Ok tt, d', t)
    /\ (images d' = images d
        \/ (Forall served_url (images d')
            /\ exists c sc body items,
                ToString code = Ok c
                /\ net 1%nat (apiBase ++ js "/images/" ++ c)
                   = WxSuccess sc body
                /\ Get body (js "images") = Ok (VArr items)
                /\ List.length (images d') = List.length items)).
Proof.
  unfold loadAcupoint, dtry_catch, loadAcupoint_try, loadAcupoint_catch,
    request, dbind, dlift, dret, detail_setData, detail_emit.
  repeat detail_step;
    do 2 eexists; (split; [reflexivity|]); simpl; auto;
      right;
      match goal with
      | H : detail_image_urls _ = Ok _ |- _ =>
        destruct (detail_image_urls_served _ _ H) as (Hs & items & -> & Hl)
      end;
      (split; [exact Hs|]);
      match goal with
      | Hc : ToString code = Ok ?c,
        Hn : net 1%nat _ = WxSuccess ?sc ?body,
        Hg : Get ?body _ = Ok (VArr ?its) |- _ =>
        exists c, sc, body, its; repeat split; assumption
      end.
Qed.

(** X19. An answer that reports success without an acupoint (absent or
    [null]) makes the reading of its name throw: the failure toast is
    shown, the images are not asked for and stay as they were. *)
Theorem loadAcupoint_success_without_acupoint (net : detail_network)
        (code : value) (c : jsstring) (d : detail_data) (sc1 : Z)
        (body1 : list (jsstring * value)) :
  ToString code = Ok c ->
  net 0%nat (apiBase ++ js "/acupoint/" ++ c) = WxSuccess sc1 (VObj body1) ->
  ToBoolean (field body1 (js "success")) = true ->
  field body1 (js "acupoint") = VUndefined
  \/ field body1 (js "acupoint") = VNull ->
  exists d' t,
    loadAcupoint net code d = (Ok tt, d', t)
    /\ images d' = images d
    /\ detail_requests t = [apiBase ++ js "/acupoint/" ++ c]
    /\ toasts t = [js "加载失败"].
Proof.
  intros Hc H1 Hs Hf.
  unfold loadAcupoint, dtry_catch, loadAcupoint_try, loadAcupoint_catch,
    request, dbind, dlift, dret, detail_setData, detail_emit.
  rewrite Hc, H1, !Get_object, Hs.
  destruct Hf as [-> | ->]; do 2 eexists; (split; [reflexivity|]);
    repeat split.
Qed.

End Facts.

(** * The facts on the concrete page *)

#[local] Existing Instance Demo.env.

Import Demo.

Lemma asking_accepted : is_accepted asking.
Proof. split; [vm_compute; discriminate|reflexivity]. Defined.

Lemma guard_is_noop_witness :
  (trim (inputValue blank) = [] \/ sending blank = true)
  /\ sendMessage offline blank = (Ok tt, blank, []).
Proof.
  assert (H : trim (inputValue blank) = [] \/ sending blank = true)
    by (left; reflexivity).
  split; [exact H|exact (guard_is_noop offline blank H)].
Defined.

Lemma loading_bracket_witness :
  is_accepted asking
  /\ Forall (fun m => msg_id m <= messageId asking) (messages asking)
  /\ exists terminal t d',
      sendMessage (answering llm_body) asking = (Ok tt, d', t)
      /\ msg_id terminal = messageId asking + 3
      /\ isUser terminal = false
      /\ (type_of terminal = Some text \/ type_of terminal = Some diagnosis)
      /\ let user := UserMsg (messageId asking + 1) (trim (inputValue asking)) in
         let ld := LoadingMsg (messageId asking + 2) in
         let bracket :=
           [Append user; Append ld; RemoveLoading; Append terminal] in
         map messages (renders t)
         = [apply_ops (firstn 2 bracket) (messages asking);
            apply_ops bracket (messages asking);
            apply_ops bracket (messages asking)]
         /\ messages d' = apply_ops bracket (messages asking)
         /\ Forall (fun log =>
                      (has_loading log = true /\ ~ In terminal log)
                      \/ (has_loading log = false /\ In terminal log))
                   (map messages (renders t)).
Proof.
  split; [exact asking_accepted|]. split; [constructor|].
  apply (loading_bracket (answering llm_body) asking asking_accepted).
  constructor.
Defined.

Lemma sending_cleared_once_witness :
  is_accepted asking
  /\ exists t d',
      sendMessage (answering no_diagnosis_body) asking = (Ok tt, d', t)
      /\ sending d' = false
      /\ (exists before,
             renders t = before ++ [d']
             /\ Forall (fun r => sending r = true) before)
      /\ forall (net' : network) (v : jsstring),
          trim v <> [] ->
          exists t' d'',
            sendMessage net' (typed v d') = (Ok tt, d'', t')
            /\ hd_error (renders t') = Some (accepted (typed v d'))
            /\ In (UserMsg (messageId d' + 1) (trim v)) (messages d'').
Proof.
  split; [exact asking_accepted|].
  exact (sending_cleared_once (answering no_diagnosis_body) asking
           asking_accepted).
Defined.

Lemma image_cap_witness :
  nth_error [point "LI4"] 0 = Some (point "LI4")
  /\ Get (point "LI4") (js "code") = Ok (str "LI4")
  /\ ToString (str "LI4") = Ok (js "LI4")
  /\ image_response (answering llm_body) 0
                    (apiBase ++ js "/images/" ++ js "LI4")
     = WxSuccess 200 (VObj ten_images)
  /\ lookup (js "images") ten_images = Some (VArr (map VStr ten_paths))
  /\ List.length ten_paths = 10%nat
  /\ exists out t oprops urls,
      loadAcupointImages (answering llm_body) (VArr [point "LI4"]) asking
      = (Ok out, asking, t)
      /\ nth_error out 0 = Some (VObj oprops)
      /\ lookup (js "images") oprops = Some (VArr urls)
      /\ urls = map (fun path => VStr (apiBase ++ path)) (firstn 6 ten_paths)
      /\ List.length urls = Nat.min (List.length ten_paths) 6.
Proof.
  repeat (split; [reflexivity|]).
  apply (image_cap (answering llm_body) [point "LI4"] asking 0
                   (point "LI4") (str "LI4") (js "LI4") ten_images ten_paths);
    reflexivity.
Defined.


Lemma transport_failure_recovers_witness :
  is_accepted asking
  /\ transport_failure (chat_response offline (trim (inputValue asking)))
  /\ recovered offline asking.
Proof.
  split; [exact asking_accepted|]. split; [exact I|].
  exact (transport_failure_recovers offline asking asking_accepted I).
Defined.

Lemma missing_diagnosis_recovers_witness :
  is_accepted asking
  /\ chat_response (answering no_diagnosis_body) (trim (inputValue asking))
     = WxSuccess 200 (VObj no_diagnosis_body)
  /\ ToBoolean (field no_diagnosis_body (js "success")) = true
  /\ strict_eq_str (field no_diagnosis_body (js "mode")) (js "llm") = false
  /\ (field no_diagnosis_body (js "diagnosis") = VUndefined
      \/ field no_diagnosis_body (js "diagnosis") = VNull)
  /\ recovered (answering no_diagnosis_body) asking
  /\ forall (net' : network) (v : jsstring) (d' : page_data) t,
      sendMessage (answering no_diagnosis_body) asking = (Ok tt, d', t) ->
      trim v <> [] ->
      exists t' d'',
        sendMessage net' (typed v d') = (Ok tt, d'', t')
        /\ In (UserMsg (messageId d' + 1) (trim v)) (messages d'').
Proof.
  split; [exact asking_accepted|]. do 3 (split; [reflexivity|]).
  split; [left; reflexivity|].
  apply (missing_diagnosis_recovers (answering no_diagnosis_body) asking
           no_diagnosis_body asking_accepted);
    try reflexivity.
  left; reflexivity.
Defined.

Lemma diagnosis_by_mode_witness :
  is_accepted asking
  /\ (chat_response (answering llm_body) (trim (inputValue asking))
      = WxSuccess 200 (VObj llm_body)
      /\ ToBoolean (field llm_body (js "success")) = true
      /\ strict_eq_str (field llm_body (js "mode")) (js "llm") = true
      /\ list_or_absent (field llm_body (js "recommended_acupoints"))
                        [point "LI4"]
      /\ exists points t' t d',
          loadAcupointImages (answering llm_body) (VArr [point "LI4"])
                             (accepted asking)
          = (Ok points, accepted asking, t')
          /\ sendMessage (answering llm_body) asking = (Ok tt, d', t)
          /\ messages d'
             = filter not_loading (messages asking)
               ++ [UserMsg (messageId asking + 1) (trim (inputValue asking));
                   DiagnosisMsg (messageId asking + 3) []
                                (field llm_body (js "llm_response")) points
                                (VStr [])]
          /\ sending d' = false)
  /\ (chat_response (answering keyword_body) (trim (inputValue asking))
      = WxSuccess 200 (VObj keyword_body)
      /\ ToBoolean (field keyword_body (js "success")) = true
      /\ strict_eq_str (field keyword_body (js "mode")) (js "llm") = false
      /\ field keyword_body (js "diagnosis") = VObj headache
      /\ field headache (js "symptom") = VStr (js "头痛")
      /\ list_or_absent (field headache (js "acupoints")) [point "GB20"]
      /\ exists points disclaimer t' t d',
          loadAcupointImages (answering keyword_body) (VArr [point "GB20"])
                             (accepted asking)
          = (Ok points, accepted asking, t')
          /\ sendMessage (answering keyword_body) asking = (Ok tt, d', t)
          /\ messages d'
             = filter not_loading (messages asking)
               ++ [UserMsg (messageId asking + 1) (trim (inputValue asking));
                   DiagnosisMsg (messageId asking + 3)
                                (js "针对「" ++ js "头痛" ++ js "」推荐以下穴位：")
                                (VStr []) points disclaimer]
          /\ (forall s, field headache (js "disclaimer") = VStr s ->
                        disclaimer = VStr s)
          /\ (field headache (js "disclaimer") = VUndefined ->
              disclaimer = VStr [])
          /\ sending d' = false).
Proof.
  split; [exact asking_accepted|]. split.
  - do 3 (split; [reflexivity|]). split; [left; reflexivity|].
    apply (proj1 (diagnosis_by_mode (answering llm_body) asking llm_body
                    asking_accepted eq_refl eq_refl));
      [reflexivity|left; reflexivity].
  - do 5 (split; [reflexivity|]). split; [left; reflexivity|].
    apply (proj2 (diagnosis_by_mode (answering keyword_body) asking
                    keyword_body asking_accepted eq_refl eq_refl));
      [reflexivity|reflexivity|reflexivity|left; reflexivity].
Defined.

(** ** The runs listed in the specification *)

Example order_preservation :
  exists t,
    loadAcupointImages second_fails
      (VArr [point "A"; point "B"; point "C"]) asking
    = (Ok [with_images (point "A")
             (map (fun p => VStr (apiBase ++ p)) (firstn 6 ten_paths));
           with_images (point "B") [];
           with_images (point "C")
             (map (fun p => VStr (apiBase ++ p)) (firstn 6 ten_paths))],
       asking, t)
    /\ requests t
       = [(GET, js "https://tcm.example/images/A");
          (GET, js "https://tcm.example/images/B");
          (GET, js "https://tcm.example/images/C")].
Proof. eexists. split; vm_compute; reflexivity. Qed.

Example image_cap_of_ten :
  point_images (answering llm_body) 0 (point "LI4")
  = map (fun s => VStr (js s))
        ["https://tcm.example/i/0.png"; "https://tcm.example/i/1.png";
         "https://tcm.example/i/2.png"; "https://tcm.example/i/3.png";
         "https://tcm.example/i/4.png"; "https://tcm.example/i/5.png"]%string.
Proof. vm_compute. reflexivity. Qed.

Example llm_mode_run :
  messages (snd (fst (sendMessage (answering llm_body) asking)))
  = [UserMsg 1 (js "我头痛");
     DiagnosisMsg 3 [] (str "text")
       [with_images (point "LI4")
          (map (fun p => VStr (apiBase ++ p)) (firstn 6 ten_paths))]
       (VStr [])].
Proof. vm_compute. reflexivity. Qed.

Example keyword_mode_run :
  messages (snd (fst (sendMessage (answering keyword_body) asking)))
  = [UserMsg 1 (js "我头痛");
     DiagnosisMsg 3 (js "针对「头痛」推荐以下穴位：") (VStr [])
       [with_images (point "GB20")
          (map (fun p => VStr (apiBase ++ p)) (firstn 6 ten_paths))]
       (str "D")].
Proof. vm_compute. reflexivity. Qed.

Example soft_failure_run :
  messages (snd (fst (sendMessage (answering not_found_body) asking)))
  = [UserMsg 1 (js "我头痛"); TextMsg 3 (VStr NOT_FOUND_TEXT)].
Proof. vm_compute. reflexivity. Qed.

Example transport_failure_run :
  sendMessage offline asking
  = (Ok tt,
     mkData [UserMsg 1 (js "我头痛"); TextMsg 3 (VStr NETWORK_ERROR_TEXT)]
            [] false (js "msg-2") 3 [],
     [Render (mkData [UserMsg 1 (js "我头痛"); LoadingMsg 2]
                     [] true (js "msg-2") 2 []);
      Request POST (js "https://tcm.example/chat") (Some (js "我头痛"));
      ConsoleError (js "API错误:") (RequestFailed (js "request:fail"));
      Render (mkData [UserMsg 1 (js "我头痛");
                      TextMsg 3 (VStr NETWORK_ERROR_TEXT)]
                     [] true (js "msg-2") 3 []);
      Render (mkData [UserMsg 1 (js "我头痛");
                      TextMsg 3 (VStr NETWORK_ERROR_TEXT)]
                     [] false (js "msg-2") 3 [])]).
Proof. vm_compute. reflexivity. Qed.

(** A point that already has a field called [images]: the resolved list
    takes its place, the other fields stay. *)
Example images_field_replaced :
  with_images (VObj (props [("images", str "old"); ("code", str "LI4")]%string))
              []
  = VObj (props [("images", VArr []); ("code", str "LI4")]%string).
Proof. vm_compute. reflexivity. Qed.

(** Two submissions in a row, the second one from a quick tap. *)
Example two_submissions :
  map msg_id
      (messages (fst (run_session
                        [Typed (js "头痛"); Send offline;
                         QuickTap (answering llm_body) (js "我失眠睡不着")]
                        initial_data)))
  = [1; 3; 4; 6].
Proof. vm_compute. reflexivity. Qed.

(** ** More facts on the concrete page *)

Lemma user_messages_trimmed_witness :
  In (UserMsg 1 (js "我头痛"))
     (messages (fst (run_session short_session initial_data)))
  /\ js "我头痛" <> []
  /\ trim (js "我头痛") = js "我头痛"
  /\ (forall u r, js "我头痛" = u :: r -> is_white_space u = false)
  /\ (forall u r, rev (js "我头痛") = u :: r -> is_white_space u = false).
Proof.
  assert (H : In (UserMsg 1 (js "我头痛"))
                 (messages (fst (run_session short_session initial_data))))
    by (left; reflexivity).
  split; [exact H|].
  exact (user_messages_trimmed short_session 1 (js "我头痛") H).
Defined.

Lemma points_in_log_resolved_witness :
  let shown := with_images (point "LI4")
                 (map (fun p => VStr (apiBase ++ p)) (firstn 6 ten_paths)) in
  let m := DiagnosisMsg 3 [] (str "text") [shown] (VStr []) in
  In m (messages (fst (run_session short_session initial_data)))
  /\ message_acupoints m = Some [shown]
  /\ In shown [shown]
  /\ exists props images,
      shown = VObj props
      /\ lookup (js "images") props = Some (VArr images)
      /\ (List.length images <= 6)%nat
      /\ forall u, In u images -> exists path, u = VStr (apiBase ++ path).
Proof.
  intros shown m.
  assert (H1 : In m (messages (fst (run_session short_session initial_data))))
    by (right; left; vm_compute; reflexivity).
  assert (H3 : In shown [shown]) by now left.
  split; [exact H1|]. split; [reflexivity|]. split; [exact H3|].
  exact (points_in_log_resolved short_session m [shown] shown H1 eq_refl H3).
Defined.

Lemma one_chat_request_then_images_witness :
  is_accepted asking
  /\ exists d' terminal rest,
      sendMessage (answering llm_body) asking
      = (Ok tt, d',
         Render (accepted asking)
           :: Request POST (apiBase ++ js "/chat")
                      (Some (trim (inputValue asking)))
           :: rest)
      /\ messages d'
         = filter not_loading (messages asking)
           ++ [UserMsg (messageId asking + 1) (trim (inputValue asking));
               terminal]
      /\ Forall image_get (requests rest)
      /\ (List.length (requests rest) <= points_shown terminal)%nat.
Proof.
  split; [exact asking_accepted|].
  exact (one_chat_request_then_images (answering llm_body) asking
           asking_accepted).
Defined.

Lemma scroll_anchor_after_submission_witness :
  is_accepted asking
  /\ Forall (fun m => msg_id m <= messageId asking) (messages asking)
  /\ exists t d' terminal,
      sendMessage (answering no_diagnosis_body) asking = (Ok tt, d', t)
      /\ messages d'
         = filter not_loading (messages asking)
           ++ [UserMsg (messageId asking + 1) (trim (inputValue asking));
               terminal]
      /\ msg_id terminal = messageId asking + 3
      /\ match sendMessage_try (answering no_diagnosis_body)
                               (trim (inputValue asking)) (accepted asking)
         with
         | (Ok _, _, _) => scrollToView d' = msg_anchor (msg_id terminal)
         | (Throw _, _, _) =>
           scrollToView d' = msg_anchor (messageId asking + 2)
           /\ terminal = TextMsg (messageId asking + 3)
                                 (VStr NETWORK_ERROR_TEXT)
           /\ forall m, In m (messages d') ->
                        msg_anchor (msg_id m) <> scrollToView d'
         end
      /\ ((exists e t0,
              sendMessage_try (answering no_diagnosis_body)
                              (trim (inputValue asking)) (accepted asking)
              = (Throw e, accepted asking, t0))
          <-> transport_failure
                (chat_response (answering no_diagnosis_body)
                               (trim (inputValue asking)))
              \/ exists res e t0,
                  chat_response (answering no_diagnosis_body)
                                (trim (inputValue asking))
                  = WxSuccess 200 res
                  /\ response_message (answering no_diagnosis_body) res
                                      (accepted asking)
                     = (Throw e, accepted asking, t0))
      /\ forall a b, msg_anchor a = msg_anchor b -> a = b.
Proof.
  split; [exact asking_accepted|]. split; [constructor|].
  apply (scroll_anchor_after_submission (answering no_diagnosis_body) asking
           asking_accepted).
  constructor.
Defined.

Lemma unusable_point_list_recovers_witness :
  is_accepted asking
  /\ chat_response (answering unusable_body) (trim (inputValue asking))
     = WxSuccess 200 (VObj unusable_body)
  /\ ToBoolean (field unusable_body (js "success")) = true
  /\ strict_eq_str (field unusable_body (js "mode")) (js "llm") = true
  /\ iterate (or_else (field unusable_body (js "recommended_acupoints"))
                      (VArr [])) = None
  /\ recovered (answering unusable_body) asking.
Proof.
  split; [exact asking_accepted|]. do 4 (split; [reflexivity|]).
  apply (proj1 (unusable_point_list_recovers (answering unusable_body) asking
                  unusable_body asking_accepted eq_refl eq_refl));
    reflexivity.
Defined.

Lemma images_need_a_good_answer_witness :
  exists out t oprops images,
    loadAcupointImages (answering llm_body) (VArr [point "LI4"]) asking
    = (Ok out, asking, t)
    /\ nth_error out 0 = Some (VObj oprops)
    /\ lookup (js "images") oprops = Some (VArr images)
    /\ images <> []
    /\ exists point code c body items,
        nth_error [Demo.point "LI4"] 0 = Some point
        /\ Get point (js "code") = Ok code
        /\ ToString code = Ok c
        /\ image_response (answering llm_body) 0
                          (apiBase ++ js "/images/" ++ c)
           = WxSuccess 200 body
        /\ Get body (js "images") = Ok (VArr items)
        /\ items <> []
        /\ List.length images = Nat.min (List.length items) 6.
Proof.
  do 4 eexists.
  assert (H1 : loadAcupointImages (answering llm_body) (VArr [point "LI4"])
                                  asking
               = (Ok (resolved (answering llm_body) 0 [point "LI4"]), asking,
                  [Request GET (js "https://tcm.example/images/LI4") None]))
    by (vm_compute; reflexivity).
  assert (H2 : nth_error (resolved (answering llm_body) 0 [point "LI4"]) 0
               = Some (VObj (obj_set (js "images")
                              (VArr (point_images (answering llm_body) 0
                                                  (point "LI4")))
                              (spread (point "LI4")))))
    by reflexivity.
  assert (H3 : lookup (js "images")
                      (obj_set (js "images")
                               (VArr (point_images (answering llm_body) 0
                                                   (point "LI4")))
                               (spread (point "LI4")))
               = Some (VArr (point_images (answering llm_body) 0
                                          (point "LI4"))))
    by (vm_compute; reflexivity).
  assert (H4 : point_images (answering llm_body) 0 (point "LI4") <> [])
    by (vm_compute; discriminate).
  split; [exact H1|]. split; [exact H2|]. split; [exact H3|].
  split; [exact H4|].
  exact (images_need_a_good_answer (answering llm_body) [point "LI4"] asking
           _ _ 0%nat _ _ H1 H2 H3 H4).
Defined.


Lemma loadAcupoint_shows_all_images_witness :
  ToString (str "LI4") = Ok (js "LI4")
  /\ detail_found 0%nat (apiBase ++ js "/acupoint/" ++ js "LI4")
     = WxSuccess 200 (VObj found_body)
  /\ ToBoolean (field found_body (js "success")) = true
  /\ field found_body (js "acupoint") = hegu
  /\ Get hegu (js "chinese_name") = Ok (str "合谷")
  /\ detail_found 1%nat (apiBase ++ js "/images/" ++ js "LI4")
     = WxSuccess 200 (VObj ten_images)
  /\ field ten_images (js "images") = VArr (map VStr ten_paths)
  /\ images (snd (fst (loadAcupoint detail_found (str "LI4") initial_detail)))
     = map (fun path => VStr (apiBase ++ path)) ten_paths
  /\ List.length
       (images (snd (fst (loadAcupoint detail_found (str "LI4")
                                       initial_detail))))
     = 10%nat.
Proof.
  do 7 (split; [reflexivity|]).
  pose proof (loadAcupoint_shows_all_images detail_found (str "LI4")
                (js "LI4") initial_detail 200 200 found_body ten_images
                hegu (str "合谷") ten_paths
                eq_refl eq_refl eq_refl eq_refl eq_refl eq_refl eq_refl)
    as [H _].
  rewrite H. split; reflexivity.
Defined.

Lemma loadAcupoint_first_request_fails_witness :
  ToString (str "LI4") = Ok (js "LI4")
  /\ detail_offline 0%nat (apiBase ++ js "/acupoint/" ++ js "LI4")
     = WxFail (js "request:fail")
  /\ loadAcupoint detail_offline (str "LI4") initial_detail
     = (Ok tt, initial_detail,
        [DetailRequest (apiBase ++ js "/acupoint/" ++ js "LI4");
         DetailConsoleError (js "加载穴位详情失败:")
                            (RequestFailed (js "request:fail"));
         ShowToast (js "加载失败")]).
Proof.
  do 2 (split; [reflexivity|]).
  exact (loadAcupoint_first_request_fails detail_offline (str "LI4")
           (js "LI4") initial_detail (js "request:fail") eq_refl eq_refl).
Defined.

Lemma loadAcupoint_images_request_fails_witness :
  ToString (str "LI4") = Ok (js "LI4")
  /\ detail_images_fail 0%nat (apiBase ++ js "/acupoint/" ++ js "LI4")
     = WxSuccess 200 (VObj found_body)
  /\ ToBoolean (field found_body (js "success")) = true
  /\ field found_body (js "acupoint") = hegu
  /\ Get hegu (js "chinese_name") = Ok (str "合谷")
  /\ detail_images_fail 1%nat (apiBase ++ js "/images/" ++ js "LI4")
     = WxFail (js "request:fail")
  /\ snd (fst (loadAcupoint detail_images_fail (str "LI4") initial_detail))
     = {| acupoint := hegu; images := [] |}.
Proof.
  do 6 (split; [reflexivity|]).
  now rewrite (loadAcupoint_images_request_fails detail_images_fail
                 (str "LI4") (js "LI4") initial_detail 200 found_body hegu
                 (str "合谷") (js "request:fail")
                 eq_refl eq_refl eq_refl eq_refl eq_refl eq_refl).
Defined.

Lemma loadAcupoint_not_found_is_silent_witness :
  ToString (str "XX") = Ok (js "XX")
  /\ detail_not_found 0%nat (apiBase ++ js "/acupoint/" ++ js "XX")
     = WxSuccess 404 (VObj not_found_body)
  /\ Get (VObj not_found_body) (js "success") = Ok (VBool false)
  /\ ToBoolean (VBool false) = false
  /\ detail_not_found 1%nat (apiBase ++ js "/images/" ++ js "XX")
     = WxSuccess 200 (VObj ten_images)
  /\ field ten_images (js "images") = VArr (map VStr ten_paths)
  /\ loadAcupoint detail_not_found (str "XX") initial_detail
     = (Ok tt,
        {| acupoint := acupoint initial_detail;
           images := map (fun path => VStr (apiBase ++ path)) ten_paths |},
        [DetailRequest (apiBase ++ js "/acupoint/" ++ js "XX");
         DetailRequest (apiBase ++ js "/images/" ++ js "XX");
         DetailRender
           {| acupoint := acupoint initial_detail;
              images := map (fun path => VStr (apiBase ++ path)) ten_paths |}]).
Proof.
  do 6 (split; [reflexivity|]).
  exact (loadAcupoint_not_found_is_silent detail_not_found (str "XX")
           (js "XX") initial_detail 404 200 (VObj not_found_body)
           (VBool false) ten_images ten_paths
           eq_refl eq_refl eq_refl eq_refl eq_refl eq_refl).
Defined.

Lemma loadAcupoint_success_without_acupoint_witness :
  ToString (str "LI4") = Ok (js "LI4")
  /\ detail_no_acupoint 0%nat (apiBase ++ js "/acupoint/" ++ js "LI4")
     = WxSuccess 200 (VObj no_diagnosis_body)
  /\ ToBoolean (field no_diagnosis_body (js "success")) = true
  /\ (field no_diagnosis_body (js "acupoint") = VUndefined
      \/ field no_diagnosis_body (js "acupoint") = VNull)
  /\ exists d' t,
      loadAcupoint detail_no_acupoint (str "LI4") initial_detail
      = (Ok tt, d', t)
      /\ images d' = images initial_detail
      /\ detail_requests t = [apiBase ++ js "/acupoint/" ++ js "LI4"]
      /\ toasts t = [js "加载失败"].
Proof.
  do 3 (split; [reflexivity|]). split; [left; reflexivity|].
  exact (loadAcupoint_success_without_acupoint detail_no_acupoint (str "LI4")
           (js "LI4") initial_detail 200 no_diagnosis_body
           eq_refl eq_refl eq_refl (or_introl eq_refl)).
Defined.

